(** * TradeView back-tester: strategy account, simulation loop and metrics

    A shallow embedding of [strategies/base_strategy.py],
    [strategies/ma_cross_strategy.py], [strategies/strategy_template.py],
    [backtester/engine.py] and the curve thinning of [webui/app.py].

    Numbers.  The Python code computes with [float]; here every amount
    (price, size, cash, percentage) is an exact rational of [Q].  Python's
    [==], [<], [<=] on numbers are [Qeq_bool], [Qltb], [Qle_bool]; an
    assignment copies the value, so "the field now holds that value" is
    Leibniz equality while "numerically unchanged" is [==].  Rounding error,
    overflow and NaN of the amounts are outside the model, so the
    statements below keep to what the code's own expressions and
    comparisons give.  The steps of the report that are pandas, numpy or
    float-power code (Sharpe ratio, days of the run, annualised return) are
    parameters of the model, [FloatSteps]: they return a double or raise.

    Exceptions.  Code that can raise returns a [result]; the arithmetic and
    indexing of the model raise [IndexError] and [ZeroDivisionError], the
    float steps may raise [OverflowError] or [TypeError]. *)

From Stdlib Require Import String QArith Qabs ZArith List Bool Lia Lqa.
Import ListNotations.
Open Scope Q_scope.

(** ** Python numbers *)

Definition Qltb (a b : Q) : bool := negb (Qle_bool b a).

(** [float('inf')] is the only non-rational value the modelled code builds. *)
Inductive pyfloat : Type :=
| Finite (q : Q)
| PosInf.

(** ** Exceptions *)

Inductive exc : Type :=
| IndexError
| ZeroDivisionError
| OverflowError
| TypeError.

Inductive result (A : Type) : Type :=
| Ok (a : A)
| Raise (e : exc).
Arguments Ok {A} a.
Arguments Raise {A} e.

Definition bind {A B : Type} (m : result A) (k : A -> result B) : result B :=
  match m with
  | Ok a => k a
  | Raise e => Raise e
  end.

Declare Scope py_scope.
Delimit Scope py_scope with py.
Notation "x <- m ;; k" := (bind m (fun x => k))
  (at level 61, m at next level, right associativity) : py_scope.

(** [a / b] on Python numbers. *)
Definition pydiv (a b : Q) : result Q :=
  if Qeq_bool b 0 then Raise ZeroDivisionError else Ok (a / b).

(** [seq[i]] for a non-negative index. *)
Definition pyindex {A : Type} (l : list A) (i : nat) : result A :=
  match nth_error l i with
  | Some x => Ok x
  | None => Raise IndexError
  end.

(** [round(x, 2)]: to a nearest hundredth.  The model rounds the rational
    itself and sends a tie to the even neighbour; the code rounds a double,
    where a decimal tie falls to whichever side the double lies on.  The
    statements rely on the nearest hundredth only, not on the tie. *)
Definition round_half_even (q : Q) : Z :=
  let n := Qnum q in
  let d := Zpos (Qden q) in
  let f := (n / d)%Z in
  let r := (n mod d)%Z in
  match (2 * r ?= d)%Z with
  | Lt => f
  | Gt => (f + 1)%Z
  | Eq => if Z.even f then f else (f + 1)%Z
  end.

Definition round2 (q : Q) : Q := round_half_even (q * 100) # 100.

(** ** strategies/base_strategy.py *)

Module BaseStrategy.

(** The three mutable attributes set by [__init__]. *)
Record account : Type := {
  position : Q;
  cash : Q;
  entry_price : option Q
}.

Definition init : account :=
  {| position := 0; cash := 100000; entry_price := None |}.

Definition set_entry_price (p : option Q) (a : account) : account :=
  {| position := position a; cash := cash a; entry_price := p |}.

Definition set_cash (c : Q) (a : account) : account :=
  {| position := position a; cash := c; entry_price := entry_price a |}.

(** Truth value of [self.entry_price]: [None] and [0.0] are false. *)
Definition truthy (p : option Q) : bool :=
  match p with
  | None => false
  | Some e => negb (Qeq_bool e 0)
  end.

(** [(self.cash * 0.95) / self.entry_price if self.entry_price else 0];
    the division is only reached with a non-zero divisor. *)
Definition get_position_size (a : account) : Q :=
  match entry_price a with
  | Some e => if truthy (Some e) then (cash a * (95 # 100)) / e else 0
  | None => 0
  end.

Definition buy (price : Q) (size : option Q) (a : account) : bool * account :=
  if Qltb 0 (position a) then (false, a)
  else
    let size := match size with
                | Some s => s
                | None => get_position_size a
                end in
    let cost := price * size in
    if Qltb (cash a) cost then (false, a)
    else (true, {| position := size;
                   cash := cash a - cost;
                   entry_price := Some price |}).

Definition sell (price : Q) (size : option Q) (a : account) : bool * account :=
  if Qle_bool (position a) 0 then (false, a)
  else
    let size := match size with
                | Some s => s
                | None => position a
                end in
    let size := if Qltb (position a) size then position a else size in
    let proceeds := price * size in
    let position' := position a - size in
    (true, {| position := position';
              cash := cash a + proceeds;
              entry_price := if Qeq_bool position' 0 then None
                             else entry_price a |}).

Definition reset (a : account) : account :=
  {| position := 0; cash := 100000; entry_price := None |}.

End BaseStrategy.
Import BaseStrategy.

(** ** Bars and the strategy interface *)

(** One row of the OHLCV frame; [datetime] is the row's index value, a
    timestamp of the frame's [DatetimeIndex]. *)
Record bar : Type := {
  datetime : Z;
  open : Q;
  high : Q;
  low : Q;
  close : Q;
  volume : Q
}.

(** The abstract methods of [BaseStrategy].  A subclass keeps its own
    buffers of type [B]; [should_buy] and [should_sell] read the account
    (both concrete strategies test [self.position]); [on_bar] and the
    subclass part of [reset] touch the buffers only. *)
Class Strategy (B : Type) : Type := {
  on_bar : bar -> B -> B;
  should_buy : account -> B -> bool;
  should_sell : account -> B -> bool;
  reset_buffers : B -> B
}.

(** ** strategies/ma_cross_strategy.py *)

Module MACrossStrategy.

Inductive ma_kind : Type := SMA | EMA.

(** [params]; the periods are taken positive. *)
Record params : Type := {
  fast_period : positive;
  slow_period : positive;
  ma_type : ma_kind
}.

Definition default_params : params :=
  {| fast_period := 5; slow_period := 20; ma_type := SMA |}.

Record buffers : Type := {
  prices : list Q;
  fast_ma : option Q;
  slow_ma : option Q;
  prev_fast_ma : option Q;
  prev_slow_ma : option Q;
  fast_ma_history : list (option Q);
  slow_ma_history : list (option Q)
}.

Definition empty_buffers : buffers :=
  {| prices := []; fast_ma := None; slow_ma := None;
     prev_fast_ma := None; prev_slow_ma := None;
     fast_ma_history := []; slow_ma_history := [] |}.

Definition period_Q (period : positive) : Q := inject_Z (Zpos period).

(** [sum(xs)] *)
Definition pysum (xs : list Q) : Q := fold_left Qplus xs 0.

(** [xs[-period:]] for [period >= 1] *)
Definition last_n (period : positive) (xs : list Q) : list Q :=
  skipn (length xs - Pos.to_nat period) xs.

Definition _calculate_sma (prices : list Q) (period : positive) : option Q :=
  if (length prices <? Pos.to_nat period)%nat then None
  else Some (pysum (last_n period prices) / period_Q period).

Definition _calculate_ema (prices : list Q) (current_price : Q)
    (prev_ema : option Q) (multiplier : Q) (period : positive) : option Q :=
  match prev_ema with
  | None =>
      if (Pos.to_nat period <=? length prices)%nat
      then Some (pysum (last_n period prices) / period_Q period)
      else None
  | Some prev => Some ((current_price - prev) * multiplier + prev)
  end.

Definition multiplier (period : positive) : Q := 2 / (period_Q period + 1).

Definition ma_on_bar (p : params) (b : bar) (s : buffers) : buffers :=
  let close := close b in
  let prices := prices s ++ [close] in
  let prev_fast_ma := fast_ma s in
  let prev_slow_ma := slow_ma s in
  let '(fast, slow) :=
    match ma_type p with
    | EMA => (_calculate_ema prices close (fast_ma s)
                (multiplier (fast_period p)) (fast_period p),
              _calculate_ema prices close (slow_ma s)
                (multiplier (slow_period p)) (slow_period p))
    | SMA => (_calculate_sma prices (fast_period p),
              _calculate_sma prices (slow_period p))
    end in
  {| prices := prices; fast_ma := fast; slow_ma := slow;
     prev_fast_ma := prev_fast_ma; prev_slow_ma := prev_slow_ma;
     fast_ma_history := fast_ma_history s ++ [fast];
     slow_ma_history := slow_ma_history s ++ [slow] |}.

Definition ma_should_buy (a : account) (s : buffers) : bool :=
  if Qltb 0 (position a) then false
  else
    match fast_ma s, slow_ma s, prev_fast_ma s, prev_slow_ma s with
    | Some f, Some sl, Some pf, Some ps =>
        let was_below := Qle_bool pf ps in
        let is_above := Qltb sl f in
        was_below && is_above
    | _, _, _, _ => false
    end.

Definition ma_should_sell (a : account) (s : buffers) : bool :=
  if Qle_bool (position a) 0 then false
  else
    match fast_ma s, slow_ma s, prev_fast_ma s, prev_slow_ma s with
    | Some f, Some sl, Some pf, Some ps =>
        let was_above := Qle_bool ps pf in
        let is_below := Qltb f sl in
        was_above && is_below
    | _, _, _, _ => false
    end.

Definition ma_reset (s : buffers) : buffers := empty_buffers.

Definition strategy (p : params) : Strategy buffers :=
  {| on_bar := ma_on_bar p;
     should_buy := ma_should_buy;
     should_sell := ma_should_sell;
     reset_buffers := ma_reset |}.

End MACrossStrategy.

(** ** strategies/strategy_template.py *)

Module TemplateStrategy.

(** [params]; the periods are taken positive. *)
Record params : Type := {
  fast_period : positive;
  slow_period : positive
}.

Definition default_params : params :=
  {| fast_period := 10; slow_period := 20 |}.

Record buffers : Type := {
  prices : list Q;
  fast_ma : option Q;
  slow_ma : option Q;
  prev_fast_ma : option Q;
  prev_slow_ma : option Q
}.

Definition empty_buffers : buffers :=
  {| prices := []; fast_ma := None; slow_ma := None;
     prev_fast_ma := None; prev_slow_ma := None |}.

(** [sum(self.prices[-period:]) / period] *)
Definition window_mean (prices : list Q) (period : positive) : Q :=
  MACrossStrategy.pysum (MACrossStrategy.last_n period prices)
  / MACrossStrategy.period_Q period.

Definition tp_on_bar (p : params) (b : bar) (s : buffers) : buffers :=
  let close := close b in
  let prices := prices s ++ [close] in
  let '(prev_fast, fast) :=
    if (Pos.to_nat (fast_period p) <=? length prices)%nat
    then (fast_ma s, Some (window_mean prices (fast_period p)))
    else (prev_fast_ma s, fast_ma s) in
  let '(prev_slow, slow) :=
    if (Pos.to_nat (slow_period p) <=? length prices)%nat
    then (slow_ma s, Some (window_mean prices (slow_period p)))
    else (prev_slow_ma s, slow_ma s) in
  {| prices := prices; fast_ma := fast; slow_ma := slow;
     prev_fast_ma := prev_fast; prev_slow_ma := prev_slow |}.

Definition tp_should_buy (a : account) (s : buffers) : bool :=
  if Qltb 0 (position a) then false
  else
    match fast_ma s, slow_ma s with
    | Some f, Some sl =>
        match prev_fast_ma s, prev_slow_ma s with
        | Some pf, Some ps => Qle_bool pf ps && Qltb sl f
        | _, _ => false
        end
    | _, _ => false
    end.

Definition tp_should_sell (a : account) (s : buffers) : bool :=
  if Qle_bool (position a) 0 then false
  else
    match fast_ma s, slow_ma s with
    | Some f, Some sl =>
        match prev_fast_ma s, prev_slow_ma s with
        | Some pf, Some ps => Qle_bool ps pf && Qltb f sl
        | _, _ => false
        end
    | _, _ => false
    end.

Definition tp_reset (s : buffers) : buffers := empty_buffers.

Definition strategy (p : params) : Strategy buffers :=
  {| on_bar := tp_on_bar p;
     should_buy := tp_should_buy;
     should_sell := tp_should_sell;
     reset_buffers := tp_reset |}.

End TemplateStrategy.

(** ** backtester/engine.py *)

(** A double as a value: every finite double is a rational. *)
Inductive float64 : Type :=
| F64 (q : Q)
| F64_inf
| F64_neg_inf
| F64_nan.

(** The steps of [_calculate_metrics] that are not exact arithmetic, as
    the report uses them:
    - [sharpe_ratio_of equity_values] is
      [round(self._calculate_sharpe_ratio(equity_df['value']), 2)]
      (pandas [pct_change], [mean], [std] and [np.sqrt]);
    - [days_between first last] is [(last - first).days] on the index;
    - [annual_return_of total_return days] is
      [round((((total_return / 100 + 1) ** (365 / max(days, 1))) - 1) * 100, 2)],
      whose float power raises [OverflowError] when out of range. *)
Class FloatSteps : Type := {
  sharpe_ratio_of : list Q -> result float64;
  days_between : Z -> Z -> Z;
  annual_return_of : Q -> Z -> result float64
}.

Module BacktestEngine.

Inductive side : Type := BUY | SELL.

Definition side_eqb (a b : side) : bool :=
  match a, b with
  | BUY, BUY | SELL, SELL => true
  | _, _ => false
  end.

(** The dictionaries appended to [self.trades], [self.signals] and
    [self.equity_curve]; [isoformat] of the index value is kept as the
    index value itself. *)
Record trade : Type := {
  t_datetime : Z;
  t_type : side;
  t_price : Q;
  t_size : Q
}.

Record signal : Type := {
  s_datetime : Z;
  s_signal : side;
  s_price : Q
}.

Record equity_point : Type := {
  e_datetime : Z;
  e_value : Q;
  e_cash : Q;
  e_position_value : Q;
  e_price : Q
}.

(** Calls made on the strategy while one bar is processed, in order, with
    what each returned.  The engine does not store them: they are the
    observable behaviour of the loop body. *)
Inductive call : Type :=
| CallOnBar
| CallShouldBuy (r : bool)
| CallBuy (r : bool)
| CallShouldSell (r : bool)
| CallSell (r : bool).

(** The full report dictionary. *)
Record metrics : Type := {
  m_initial_capital : Q;
  m_final_value : Q;
  m_return_pct : Q;
  m_annual_return_pct : float64;
  m_max_drawdown_pct : Q;
  m_sharpe_ratio : float64;
  m_total_trades : nat;
  m_won_trades : nat;
  m_lost_trades : nat;
  m_win_rate : Q;
  m_avg_profit_pct : Q;
  m_max_profit_pct : Q;
  m_max_loss_pct : Q;
  m_max_consecutive_losses : nat;
  m_profit_factor : pyfloat;
  m_start_date : Z;
  m_end_date : Z;
  m_trading_days : nat;
  m_trades : list trade;
  m_equity_curve : list equity_point;
  m_signals : list signal
}.

(** What [_calculate_metrics] returns: the four-key dictionary of the
    empty case, or the full one. *)
Inductive report : Type :=
| NoData (final_value : Q) (return_pct : Q) (total_trades : nat)
         (error : string)
| Report (m : metrics).

(** *** Metric helpers *)

Definition pysum (xs : list Q) : Q := fold_left Qplus xs 0.

Definition Qmaxb (a b : Q) : Q := if Qltb a b then b else a.
Definition Qminb (a b : Q) : Q := if Qltb b a then b else a.

(** [max(xs)] and [min(xs)] of a list whose head is [x]. *)
Definition pymax (x : Q) (xs : list Q) : Q := fold_left Qmaxb xs x.
Definition pymin (x : Q) (xs : list Q) : Q := fold_left Qminb xs x.

Definition Qnat (n : nat) : Q := inject_Z (Z.of_nat n).

Local Open Scope py_scope.

Fixpoint max_drawdown_loop (values : list Q) (peak max_dd : Q) : result Q :=
  match values with
  | [] => Ok max_dd
  | value :: rest =>
      let peak := if Qltb peak value then value else peak in
      q <- pydiv (peak - value) peak ;;
      let drawdown := q * 100 in
      let max_dd := if Qltb max_dd drawdown then drawdown else max_dd in
      max_drawdown_loop rest peak max_dd
  end.

Definition _calculate_max_drawdown (equity_values : list Q) : result Q :=
  peak <- pyindex equity_values 0 ;;
  max_drawdown_loop equity_values peak 0.

Fixpoint max_consecutive_losses_loop (profits : list Q)
    (max_losses current_losses : nat) : nat :=
  match profits with
  | [] => max_losses
  | p :: rest =>
      if Qle_bool p 0
      then let current_losses := S current_losses in
           max_consecutive_losses_loop rest
             (Nat.max max_losses current_losses) current_losses
      else max_consecutive_losses_loop rest max_losses 0%nat
  end.

Definition _calculate_max_consecutive_losses (profits : list Q) : nat :=
  max_consecutive_losses_loop profits 0%nat 0%nat.

Definition gross_profit (profits : list Q) : Q :=
  pysum (filter (fun p => Qltb 0 p) profits).

Definition gross_loss (profits : list Q) : Q :=
  Qabs (pysum (filter (fun p => Qltb p 0) profits)).

Definition _calculate_profit_factor (profits : list Q) : result pyfloat :=
  let gross_profit := gross_profit profits in
  let gross_loss := gross_loss profits in
  if Qeq_bool gross_loss 0
  then Ok (if Qltb 0 gross_profit then PosInf else Finite 0)
  else q <- pydiv gross_profit gross_loss ;; Ok (Finite (round2 q)).

(** The trade statistics of [_calculate_metrics] (the two comprehensions,
    [min], and the [for i in range(total_trades)] loop). *)
Definition buy_trades (trades : list trade) : list trade :=
  filter (fun t => side_eqb (t_type t) BUY) trades.

Definition sell_trades (trades : list trade) : list trade :=
  filter (fun t => side_eqb (t_type t) SELL) trades.

Definition total_trades (trades : list trade) : nat :=
  Nat.min (length (buy_trades trades)) (length (sell_trades trades)).

Fixpoint profits_loop (buys sells : list trade) (range : list nat)
    (profits : list Q) : result (list Q) :=
  match range with
  | [] => Ok profits
  | i :: rest =>
      b <- pyindex buys i ;;
      s <- pyindex sells i ;;
      let buy_price := t_price b in
      let sell_price := t_price s in
      q <- pydiv (sell_price - buy_price) buy_price ;;
      let profit_pct := q * 100 in
      profits_loop buys sells rest (profits ++ [profit_pct])
  end.

Definition profits_of (trades : list trade) : result (list Q) :=
  profits_loop (buy_trades trades) (sell_trades trades)
    (seq 0 (total_trades trades)) [].

Definition won_trades (profits : list Q) : nat :=
  length (filter (fun p => Qltb 0 p) profits).

Definition lost_trades (profits : list Q) : nat :=
  length (filter (fun p => Qle_bool p 0) profits).


(** *** The engine *)

Section Engine.

Context {B : Type} {strat : Strategy B} {float_steps : FloatSteps}.

(** [self.strategy] (account and buffers), [self.initial_capital] and
    the three logs; [self.data] is read-only and passed to [run]. *)
Record engine : Type := {
  strategy : account;
  buffers : B;
  initial_capital : Q;
  trades : list trade;
  equity_curve : list equity_point;
  signals : list signal
}.

(** [BacktestEngine(strategy, data, initial_capital)] on a freshly
    constructed strategy with buffers [b]. *)
Definition new_engine (b : B) (initial_capital : Q) : engine :=
  {| strategy := BaseStrategy.init; buffers := b;
     initial_capital := initial_capital;
     trades := []; equity_curve := []; signals := [] |}.

(** The subclass [reset]: [super().reset()], then the buffers. *)
Definition strategy_reset (e : engine) : engine :=
  {| strategy := BaseStrategy.reset (strategy e);
     buffers := reset_buffers (buffers e);
     initial_capital := initial_capital e;
     trades := trades e; equity_curve := equity_curve e;
     signals := signals e |}.

(** Lines 62-66 of [run]. *)
Definition start (e : engine) : engine :=
  let e := strategy_reset e in
  {| strategy := set_cash (initial_capital e) (strategy e);
     buffers := buffers e;
     initial_capital := initial_capital e;
     trades := []; equity_curve := []; signals := [] |}.

(** The body of the [for idx, row in self.data.iterrows()] loop, with
    the calls it makes on the strategy. *)
Definition process_bar_calls (b : bar) (e : engine) : engine * list call :=
  let idx := datetime b in
  let buf := on_bar b (buffers e) in
  let current_price := close b in
  let '(acct, trades', signals', calls) :=
    if should_buy (strategy e) buf then
      let acct := set_entry_price (Some current_price) (strategy e) in
      let size := get_position_size acct in
      let '(success, acct) := buy current_price (Some size) acct in
      if success then
        (acct,
         trades e ++ [{| t_datetime := idx; t_type := BUY;
                         t_price := current_price;
                         t_size := position acct |}],
         signals e ++ [{| s_datetime := idx; s_signal := BUY;
                          s_price := current_price |}],
         [CallOnBar; CallShouldBuy true; CallBuy true])
      else
        (acct, trades e, signals e,
         [CallOnBar; CallShouldBuy true; CallBuy false])
    else if should_sell (strategy e) buf then
      let size := position (strategy e) in
      let '(success, acct) := sell current_price None (strategy e) in
      if success then
        (acct,
         trades e ++ [{| t_datetime := idx; t_type := SELL;
                         t_price := current_price;
                         t_size := size |}],
         signals e ++ [{| s_datetime := idx; s_signal := SELL;
                          s_price := current_price |}],
         [CallOnBar; CallShouldBuy false; CallShouldSell true;
          CallSell true])
      else
        (acct, trades e, signals e,
         [CallOnBar; CallShouldBuy false; CallShouldSell true;
          CallSell false])
    else
      (strategy e, trades e, signals e,
       [CallOnBar; CallShouldBuy false; CallShouldSell false]) in
  let position_value := position acct * current_price in
  let total_value := cash acct + position_value in
  ({| strategy := acct;
      buffers := buf;
      initial_capital := initial_capital e;
      trades := trades';
      equity_curve :=
        equity_curve e ++ [{| e_datetime := idx;
                              e_value := total_value;
                              e_cash := cash acct;
                              e_position_value := position_value;
                              e_price := current_price |}];
      signals := signals' |},
   calls).

Definition process_bar (b : bar) (e : engine) : engine :=
  fst (process_bar_calls b e).

Definition loop (data : list bar) (e : engine) : engine :=
  fold_left (fun e b => process_bar b e) data e.

(** [xs[-1]] *)
Definition pyindex_last {A : Type} (xs : list A) : result A :=
  pyindex xs (length xs - 1).

Definition _calculate_metrics (data : list bar) (e : engine)
    : result report :=
  match equity_curve e with
  | [] => Ok (NoData (initial_capital e) 0 0%nat "No data"%string)
  | _ :: _ =>
      let equity_values := map e_value (equity_curve e) in
      final_value <- pyindex_last equity_values ;;
      q <- pydiv (final_value - initial_capital e) (initial_capital e) ;;
      let total_return := q * 100 in
      let total := total_trades (trades e) in
      profits <- profits_of (trades e) ;;
      let won := won_trades profits in
      let lost := lost_trades profits in
      max_drawdown <- _calculate_max_drawdown equity_values ;;
      sharpe_ratio <- sharpe_ratio_of equity_values ;;
      last <- pyindex_last (map datetime data) ;;
      first <- pyindex (map datetime data) 0 ;;
      let days := days_between first last in
      annual_return <- annual_return_of total_return days ;;
      let max_consecutive_losses :=
        _calculate_max_consecutive_losses profits in
      win_rate <-
        (if (0 <? total)%nat
         then q <- pydiv (Qnat won) (Qnat total) ;; Ok (round2 (q * 100))
         else Ok 0) ;;
      avg <-
        (match profits with
         | [] => Ok 0
         | _ :: _ => q <- pydiv (pysum profits) (Qnat (length profits)) ;;
                     Ok (round2 q)
         end) ;;
      let max_profit := match profits with
                        | [] => 0
                        | p :: ps => round2 (pymax p ps)
                        end in
      let max_loss := match profits with
                      | [] => 0
                      | p :: ps => round2 (pymin p ps)
                      end in
      profit_factor <- _calculate_profit_factor profits ;;
      Ok (Report {|
        m_initial_capital := initial_capital e;
        m_final_value := round2 final_value;
        m_return_pct := round2 total_return;
        m_annual_return_pct := annual_return;
        m_max_drawdown_pct := round2 max_drawdown;
        m_sharpe_ratio := sharpe_ratio;
        m_total_trades := total;
        m_won_trades := won;
        m_lost_trades := lost;
        m_win_rate := win_rate;
        m_avg_profit_pct := avg;
        m_max_profit_pct := max_profit;
        m_max_loss_pct := max_loss;
        m_max_consecutive_losses := max_consecutive_losses;
        m_profit_factor := profit_factor;
        m_start_date := first;
        m_end_date := last;
        m_trading_days := length data;
        m_trades := trades e;
        m_equity_curve := equity_curve e;
        m_signals := signals e |})
  end.

(** [run(verbose)]: the report, and the engine as the call leaves it.
    With [verbose] the second [print] evaluates [self.data.index[0]]
    and [self.data.index[-1]] before anything else happens. *)
Definition run (verbose : bool) (data : list bar) (e : engine)
    : result (report * engine) :=
  _ <- (if verbose
        then first <- pyindex (map datetime data) 0 ;;
             last <- pyindex_last (map datetime data) ;;
             Ok tt
        else Ok tt) ;;
  let e := start e in
  let e := loop data e in
  results <- _calculate_metrics data e ;;
  Ok (results, e).

End Engine.

Arguments engine B : clear implicits.

End BacktestEngine.
Import BacktestEngine.

(** ** webui/app.py *)

Module WebUI.

(** [xs[::step]] for [step >= 1]: keep an element, skip [step - 1];
    [skip] counts the elements still to pass over. *)
Fixpoint every_nth {A : Type} (step skip : nat) (xs : list A) : list A :=
  match xs with
  | [] => []
  | x :: rest =>
      match skip with
      | O => x :: every_nth step (step - 1) rest
      | S k => every_nth step k rest
      end
  end.

(** The thinning of the equity curve in [run_backtest_api]. *)
Definition sample_equity_curve (equity_curve : list equity_point)
    : list equity_point :=
  if (500 <? length equity_curve)%nat
  then let step := (length equity_curve / 500)%nat in
       every_nth step 0 equity_curve
  else equity_curve.

End WebUI.

(** ** Vocabulary of the statements *)

(** The size [buy] works with: the argument, or the default sizing. *)
Definition buy_size (size : option Q) (a : account) : Q :=
  match size with
  | Some s => s
  | None => get_position_size a
  end.

(** The size [sell] works with: the whole position when none is asked for,
    and never more than the position. *)
Definition is_sell_size (size : option Q) (a : account) (eff : Q) : Prop :=
  match size with
  | None => eff = position a
  | Some s => (position a < s -> eff = position a) /\
              (s <= position a -> eff = s)
  end.

(** The account invariant of the strategy state machine: no short
    position, and a position is held exactly when an entry price is set. *)
Definition account_inv (a : account) : Prop :=
  0 <= position a /\ (0 < position a <-> entry_price a <> None).

(** Equality of sides is decidable. *)
Definition side_eq_dec (a b : side) : {a = b} + {a <> b}.
Proof. decide equality. Defined.

(** #BUY and #SELL: how many entries of a log have the side. *)
Definition count_side (s : side) (log : list trade) : nat :=
  count_occ side_eq_dec (map t_type log) s.

(** BUY[i] and SELL[i]: [t] is the [i]-th entry of its side in arrival
    order when it stands in the log with exactly [i] entries of that side
    before it. *)
Definition is_nth_of_side (s : side) (i : nat) (t : trade)
    (log : list trade) : Prop :=
  exists pre post,
    log = pre ++ t :: post /\ t_type t = s /\ count_side s pre = i.

(** The last equity value and the return on the initial capital, in
    percent, as [_calculate_metrics] computes them. *)
Definition last_value {B : Type} (e : engine B) : Q :=
  last (map e_value (equity_curve e)) 0.

Definition total_return_pct {B : Type} (e : engine B) : Q :=
  (last_value e - initial_capital e) / initial_capital e * 100.

(** The days between the first and the last bar. *)
Definition run_days {float_steps : FloatSteps} (data : list bar) : Z :=
  days_between (hd 0%Z (map datetime data)) (last (map datetime data) 0%Z).

(** [profit_pct] of a buy paired with a sell. *)
Definition profit_pct (b s : trade) : Q :=
  (t_price s - t_price b) / t_price b * 100.

(** Win/loss classification of a list of profit percentages: every entry
    counts once, as won when it is positive and as lost when it is not. *)
Inductive tally : list Q -> nat -> nat -> Prop :=
| tally_nil : tally [] 0 0
| tally_won (p : Q) (ps : list Q) (won lost : nat) :
    0 < p -> tally ps won lost -> tally (p :: ps) (S won) lost
| tally_lost (p : Q) (ps : list Q) (won lost : nat) :
    p <= 0 -> tally ps won lost -> tally (p :: ps) won (S lost).

(** The same strategy with another [should_sell]. *)
Definition with_should_sell {B : Type} (f : account -> B -> bool)
    (s : Strategy B) : Strategy B :=
  {| on_bar := @on_bar B s;
     should_buy := @should_buy B s;
     should_sell := f;
     reset_buffers := @reset_buffers B s |}.

(** A trade of the log, by side and price. *)
Definition trade_at (side : side) (price size : Q) : trade :=
  {| t_datetime := 0; t_type := side; t_price := price; t_size := size |}.

(** The signal logged together with a trade. *)
Definition signal_of (t : trade) : signal :=
  {| s_datetime := t_datetime t; s_signal := t_type t; s_price := t_price t |}.

(** A log that opens with a BUY and then alternates SELL, BUY, ...; the
    flag says whether a BUY is expected next. *)
Fixpoint alternates (expect_buy : bool) (log : list trade) : Prop :=
  match log with
  | [] => True
  | t :: rest =>
      t_type t = (if expect_buy then BUY else SELL) /\
      alternates (negb expect_buy) rest
  end.

(** The log alternates and is in phase with the account: it has an even
    number of entries exactly when nothing is held. *)
Definition in_phase {B : Type} (e : engine B) : Prop :=
  alternates true (trades e) /\
  if Nat.even (length (trades e)) then position (strategy e) <= 0
  else 0 < position (strategy e).

(** A profit percentage that counts as a loss. *)
Definition is_loss (p : Q) : Prop := p <= 0.



(** The peak that [_calculate_max_drawdown] holds once it has gone through
    the values [seen]: it starts at the first value and takes every larger
    value in turn. *)
Definition running_peak (seen : list Q) : Q :=
  match seen with
  | [] => 0
  | first :: _ => fold_left Qmaxb seen first
  end.

(** The drawdown, in percent, of [value] below [peak]. *)
Definition drawdown_pct (peak value : Q) : Q := (peak - value) / peak * 100.

(** Float steps that return fixed values: an environment for closed
    examples, where the doubles themselves do not matter. *)
Definition float_steps_returning (sharpe annual : float64) : FloatSteps :=
  {| sharpe_ratio_of := fun _ => Ok sharpe;
     days_between := fun first last => (last - first)%Z;
     annual_return_of := fun _ _ => Ok annual |}.

(** Float steps whose power overflows. *)
Definition float_steps_overflowing (sharpe : float64) : FloatSteps :=
  {| sharpe_ratio_of := fun _ => Ok sharpe;
     days_between := fun first last => (last - first)%Z;
     annual_return_of := fun _ _ => Raise OverflowError |}.

(** ** Concrete runs *)

(** A bar whose four prices are all [c]. *)
Definition flat_bar (t : Z) (c : Q) : bar :=
  {| datetime := t; open := c; high := c; low := c; close := c; volume := 0 |}.

Fixpoint bars_from (t : Z) (closes : list Q) : list bar :=
  match closes with
  | [] => []
  | c :: rest => flat_bar t c :: bars_from (t + 1) rest
  end.

(** [MACrossStrategy()] with its default parameters (5, 20, SMA). *)
Definition ma_default : Strategy MACrossStrategy.buffers :=
  MACrossStrategy.strategy MACrossStrategy.default_params.

Definition ma_engine (capital : Q) : engine MACrossStrategy.buffers :=
  new_engine MACrossStrategy.empty_buffers capital.

(** 21 bars with non-negative prices; the fast average crosses above the
    slow one on the last bar, whose close is 0. *)
Definition zero_close_bars : list bar :=
  bars_from 0 ([12] ++ repeat 0 15 ++ [1; 1; 1; 1; 0]).

(** 21 bars with positive prices; the cross is on the last bar, at 10. *)
Definition rising_bars : list bar :=
  bars_from 0 ([120] ++ repeat 1 15 ++ [10; 10; 10; 10; 10]).

(** [MACrossStrategy] with periods 2 and 3, and six bars on which it
    buys at 1, sells at 7 and buys again at 4. *)
Definition ma_short : Strategy MACrossStrategy.buffers :=
  MACrossStrategy.strategy
    {| MACrossStrategy.fast_period := 2;
       MACrossStrategy.slow_period := 3;
       MACrossStrategy.ma_type := MACrossStrategy.SMA |}.

Definition swing_bars : list bar := bars_from 0 [8; 3; 9; 1; 7; 4].

(** A run of the loop with the default moving-average strategy, from the
    start-of-run state, and the engine as the loop leaves it. *)
Definition ma_loop (data : list bar) (capital : Q)
    : engine MACrossStrategy.buffers :=
  @loop _ ma_default data (@start _ ma_default (ma_engine capital)).

(** * Properties *)

(** ** Comparisons *)

Lemma Qltb_true (a b : Q) : Qltb a b = true <-> a < b.
Proof.
  unfold Qltb. rewrite negb_true_iff. split; intro H.
  - apply Qnot_le_lt. intro L. apply Qle_bool_iff in L. congruence.
  - destruct (Qle_bool b a) eqn:E; [|reflexivity].
    apply Qle_bool_iff in E. exfalso. apply (Qlt_not_le _ _ H E).
Qed.

Lemma Qltb_false (a b : Q) : Qltb a b = false <-> b <= a.
Proof.
  unfold Qltb. rewrite negb_false_iff. apply Qle_bool_iff.
Qed.

Lemma Qle_bool_false (a b : Q) : Qle_bool a b = false <-> b < a.
Proof.
  rewrite <- Qltb_true. unfold Qltb.
  destruct (Qle_bool a b); simpl; intuition congruence.
Qed.

Lemma Qeq_bool_false (a b : Q) : Qeq_bool a b = false <-> ~ a == b.
Proof.
  split.
  - intros E H. apply Qeq_bool_iff in H. congruence.
  - intro H. destruct (Qeq_bool a b) eqn:E; [|reflexivity].
    apply Qeq_bool_iff in E. contradiction.
Qed.

(** Case analysis on a Python comparison, leaving the order fact in the
    context. *)
Ltac by_cases_lt a b H :=
  destruct (Qltb a b) eqn:H;
  [apply Qltb_true in H | apply Qltb_false in H].

Ltac by_cases_le a b H :=
  destruct (Qle_bool a b) eqn:H;
  [apply Qle_bool_iff in H | apply Qle_bool_false in H].

Ltac by_cases_eq a b H :=
  destruct (Qeq_bool a b) eqn:H;
  [apply Qeq_bool_iff in H | apply Qeq_bool_false in H].

(** ** The account operations *)

(** C3.  [buy(price, size)] fails, returning [False] and leaving position,
    cash and entry price as they were, when a position is held or when
    [price*size] exceeds cash; in every other case it returns [True] and
    afterwards the position is [size], the entry price is [price] and cash
    has gone down by [price*size].  An omitted size stands for
    [get_position_size()]. *)
Theorem buy_spec (price : Q) (size : option Q) (a : account) :
  (0 < position a \/ cash a < price * buy_size size a ->
   buy price size a = (false, a)) /\
  (~ (0 < position a \/ cash a < price * buy_size size a) ->
   exists a',
     buy price size a = (true, a') /\
     position a' = buy_size size a /\
     entry_price a' = Some price /\
     cash a' = cash a - price * buy_size size a).
Proof.
  unfold buy. fold (buy_size size a).
  by_cases_lt 0 (position a) Hp.
  - split; [reflexivity | intro N; exfalso; apply N; left; exact Hp].
  - by_cases_lt (cash a) (price * buy_size size a) Hc.
    + split; [reflexivity | intro N; exfalso; apply N; right; exact Hc].
    + split.
      * intros [H | H]; exfalso.
        -- apply (Qlt_not_le _ _ H Hp).
        -- apply (Qlt_not_le _ _ H Hc).
      * intros _. eexists. repeat split.
Qed.

(** C4.  [sell(price, size)] returns [False] exactly when [position <= 0],
    and then changes nothing.  Otherwise it sells the effective size (the
    position by default, the request clamped to the position): cash goes
    up by [price*effective], the position goes down by [effective], and the
    entry price is cleared if the position is now zero and kept as it was
    if it is not. *)
Theorem sell_spec (price : Q) (size : option Q) (a : account) :
  let r := sell price size a in
  (fst r = false <-> position a <= 0) /\
  (position a <= 0 -> snd r = a) /\
  (0 < position a ->
   exists eff,
     is_sell_size size a eff /\
     fst r = true /\
     cash (snd r) = cash a + price * eff /\
     position (snd r) = position a - eff /\
     (position (snd r) == 0 -> entry_price (snd r) = None) /\
     (~ position (snd r) == 0 -> entry_price (snd r) = entry_price a)).
Proof.
  unfold sell.
  by_cases_le (position a) 0 Hp; cbv zeta.
  - repeat split; auto.
    intro H. exfalso. apply (Qlt_not_le _ _ H Hp).
  - split; [|split].
    + simpl. split; [discriminate | intro H].
      exfalso. apply (Qlt_not_le _ _ Hp H).
    + intro H. exfalso. apply (Qlt_not_le _ _ Hp H).
    + intros _.
      set (req := match size with Some s => s | None => position a end).
      set (eff := if Qltb (position a) req then position a else req).
      exists eff. split; [|repeat split].
      * unfold is_sell_size, eff, req. destruct size as [s|].
        -- by_cases_lt (position a) s Hs; split; intro H; try reflexivity.
           ++ exfalso. apply (Qlt_not_le _ _ Hs H).
           ++ exfalso. apply (Qlt_not_le _ _ H Hs).
        -- by_cases_lt (position a) (position a) Hs; reflexivity.
      * simpl. intro H. apply Qeq_bool_iff in H. rewrite H. reflexivity.
      * simpl. intro H. apply Qeq_bool_false in H. rewrite H. reflexivity.
Qed.

(** C10.  From a flat account with non-negative cash, [buy(price, 0)]
    succeeds: it returns [True], the position stays 0, cash is numerically
    unchanged, and the entry price is now [price].  In the loop, whenever the
    strategy asks to buy on such an account and the sizing comes out as
    zero, the bar is logged as a BUY trade of size 0 at the close, and the
    account is left flat with an entry price. *)
Theorem zero_size_buy {B : Type} {strat : Strategy B}
    (price : Q) (a : account) :
  position a == 0 -> 0 <= cash a ->
  (exists a',
     buy price (Some 0) a = (true, a') /\
     position a' = 0 /\
     cash a' == cash a /\
     entry_price a' = Some price) /\
  (forall (e : engine B) (b : bar),
     strategy e = a ->
     should_buy a (on_bar b (buffers e)) = true ->
     get_position_size (set_entry_price (Some (close b)) a) == 0 ->
     exists t,
       trades (process_bar b e) = trades e ++ [t] /\
       t_type t = BUY /\
       t_price t = close b /\
       t_size t == 0 /\
       position (strategy (process_bar b e)) == 0 /\
       entry_price (strategy (process_bar b e)) = Some (close b)).
Proof.
  intros Hflat Hcash. split.
  - unfold buy.
    by_cases_lt 0 (position a) Hp.
    { exfalso. rewrite Hflat in Hp. apply (Qlt_irrefl _ Hp). }
    by_cases_lt (cash a) (price * 0) Hc.
    { exfalso. rewrite Qmult_0_r in Hc. apply (Qlt_not_le _ _ Hc Hcash). }
    eexists. split; [reflexivity|]. simpl. repeat split.
    rewrite Qmult_0_r. unfold Qminus. rewrite Qplus_0_r. reflexivity.
  - intros e b He Hbuy Hsize.
    unfold process_bar, process_bar_calls. rewrite He, Hbuy.
    set (size := get_position_size (set_entry_price (Some (close b)) a)) in *.
    unfold buy. simpl position. simpl cash.
    by_cases_lt 0 (position a) Hp.
    { exfalso. rewrite Hflat in Hp. apply (Qlt_irrefl _ Hp). }
    by_cases_lt (cash a) (close b * size) Hc.
    { exfalso. rewrite Hsize, Qmult_0_r in Hc.
      apply (Qlt_not_le _ _ Hc Hcash). }
    simpl. eexists. split; [reflexivity|]. simpl. repeat split; assumption.
Qed.

(** ** Reset and the start of a run *)

(** C5, as the code has it.  [reset()] puts the fixed default of 100000 in
    cash, whatever the run's capital is, and clears position and entry
    price; it is the assignment the engine makes right after [reset()] that
    sets cash to the run's [initial_capital], so that the loop starts from
    a flat account holding exactly that capital, with empty logs. *)
Theorem reset_then_capital {B : Type} {strat : Strategy B}
    (a : account) (e : engine B) :
  BaseStrategy.reset a =
    {| position := 0; cash := 100000; entry_price := None |} /\
  strategy (strategy_reset e) =
    {| position := 0; cash := 100000; entry_price := None |} /\
  strategy (start e) =
    {| position := 0; cash := initial_capital e; entry_price := None |} /\
  initial_capital (start e) = initial_capital e /\
  trades (start e) = [] /\ equity_curve (start e) = [] /\ signals (start e) = [].
Proof.
  repeat split.
Qed.

(** ** One bar of the loop *)

Section LoopBody.

Context {B : Type} {strat : Strategy B}.

(** What the loop body leaves in the account: a case for each branch. *)
Lemma process_bar_account (b : bar) (e : engine B) :
  strategy (process_bar b e) =
    if should_buy (strategy e) (on_bar b (buffers e))
    then snd (buy (close b)
                (Some (get_position_size
                         (set_entry_price (Some (close b)) (strategy e))))
                (set_entry_price (Some (close b)) (strategy e)))
    else if should_sell (strategy e) (on_bar b (buffers e))
    then snd (sell (close b) None (strategy e))
    else strategy e.
Proof.
  unfold process_bar, process_bar_calls.
  destruct (should_buy _ _).
  - destruct (buy _ _ _) as [[|] acct]; reflexivity.
  - destruct (should_sell _ _); [|reflexivity].
    destruct (sell _ _ _) as [[|] acct]; reflexivity.
Qed.

(** Each bar appends exactly one equity point, built from the account as
    the bar leaves it. *)
Lemma process_bar_equity (b : bar) (e : engine B) :
  equity_curve (process_bar b e) =
    equity_curve e ++
    [{| e_datetime := datetime b;
        e_value := cash (strategy (process_bar b e)) +
                   position (strategy (process_bar b e)) * close b;
        e_cash := cash (strategy (process_bar b e));
        e_position_value := position (strategy (process_bar b e)) * close b;
        e_price := close b |}].
Proof.
  unfold process_bar, process_bar_calls.
  destruct (should_buy _ _).
  - destruct (buy _ _ _) as [[|] acct]; reflexivity.
  - destruct (should_sell _ _); [|reflexivity].
    destruct (sell _ _ _) as [[|] acct]; reflexivity.
Qed.

Lemma process_bar_capital (b : bar) (e : engine B) :
  initial_capital (process_bar b e) = initial_capital e.
Proof.
  unfold process_bar, process_bar_calls.
  destruct (should_buy _ _).
  - destruct (buy _ _ _) as [[|] acct]; reflexivity.
  - destruct (should_sell _ _); [|reflexivity].
    destruct (sell _ _ _) as [[|] acct]; reflexivity.
Qed.

(** C2.  On one bar the loop body first calls [on_bar], then
    [should_buy]; it calls [should_sell] only when [should_buy] answered
    no, in which case [buy] is not called at all.  It appends at most one
    trade, priced at the bar's close: a BUY (after a successful [buy])
    whose size is the position the account holds after the bar, or a SELL
    (after a successful [sell]) whose size is the position the account
    held before it. *)
Theorem one_trade_per_bar (b : bar) (e : engine B) :
  let e' := fst (process_bar_calls b e) in
  let calls := snd (process_bar_calls b e) in
  (exists rest,
     calls = CallOnBar
             :: CallShouldBuy (should_buy (strategy e) (on_bar b (buffers e)))
             :: rest) /\
  (forall r, In (CallShouldSell r) calls ->
     In (CallShouldBuy false) calls /\
     ~ In (CallShouldBuy true) calls /\
     forall r', ~ In (CallBuy r') calls) /\
  exists new,
    trades e' = trades e ++ new /\
    (length new <= 1)%nat /\
    forall t, In t new ->
      t_price t = close b /\
      t_datetime t = datetime b /\
      match t_type t with
      | BUY => In (CallBuy true) calls /\
               (forall r, ~ In (CallShouldSell r) calls) /\
               t_size t = position (strategy e')
      | SELL => In (CallSell true) calls /\
                t_size t = position (strategy e)
      end.
Proof.
  unfold process_bar_calls.
  destruct (should_buy _ _).
  - destruct (buy _ _ _) as [[|] acct]; cbv zeta; simpl fst; simpl snd.
    + split; [eexists; reflexivity|]. split.
      * intros r [H|[H|[H|[]]]]; discriminate.
      * eexists [_]. split; [reflexivity|]. split; [simpl; lia|].
        intros t [<-|[]]. simpl. repeat split; auto.
        intros r [H|[H|[H|[]]]]; discriminate.
    + split; [eexists; reflexivity|]. split.
      * intros r [H|[H|[H|[]]]]; discriminate.
      * exists []. split; [symmetry; apply app_nil_r|].
        split; [simpl; lia|]. intros t [].
  - destruct (should_sell _ _).
    + destruct (sell _ _ _) as [[|] acct]; cbv zeta; simpl fst; simpl snd.
      * split; [eexists; reflexivity|]. split.
        -- intros r _. split; [simpl; auto|]. split.
           ++ intros [H|[H|[H|[H|[]]]]]; discriminate.
           ++ intros r' [H|[H|[H|[H|[]]]]]; discriminate.
        -- eexists [_]. split; [reflexivity|]. split; [simpl; lia|].
           intros t [<-|[]]. simpl. repeat split; auto.
      * split; [eexists; reflexivity|]. split.
        -- intros r _. split; [simpl; auto|]. split.
           ++ intros [H|[H|[H|[H|[]]]]]; discriminate.
           ++ intros r' [H|[H|[H|[H|[]]]]]; discriminate.
        -- exists []. split; [symmetry; apply app_nil_r|].
           split; [simpl; lia|]. intros t [].
    + cbv zeta; simpl fst; simpl snd.
      split; [eexists; reflexivity|]. split.
      * intros r _. split; [simpl; auto|]. split.
        -- intros [H|[H|[H|[]]]]; discriminate.
        -- intros r' [H|[H|[H|[]]]]; discriminate.
      * exists []. split; [symmetry; apply app_nil_r|].
        split; [simpl; lia|]. intros t [].
Qed.

End LoopBody.

(** Once [should_buy] has answered yes, what [should_sell] would answer has
    no bearing on the bar. *)
Lemma buy_signal_skips_sell_check {B : Type} (s : Strategy B)
    (f : account -> B -> bool) (b : bar) (e : engine B) :
  @should_buy B s (strategy e) (@on_bar B s b (buffers e)) = true ->
  @process_bar_calls B (with_should_sell f s) b e =
  @process_bar_calls B s b e.
Proof.
  intro H. unfold process_bar_calls. simpl. rewrite H. reflexivity.
Qed.

(** ** The whole loop *)

Section Loop.

Context {B : Type} {strat : Strategy B}.

Lemma loop_app (pre post : list bar) (e : engine B) :
  loop (pre ++ post) e = loop post (loop pre e).
Proof. apply fold_left_app. Qed.

Lemma loop_snoc (pre : list bar) (b : bar) (e : engine B) :
  loop (pre ++ [b]) e = process_bar b (loop pre e).
Proof. rewrite loop_app. reflexivity. Qed.

Lemma loop_capital (data : list bar) (e : engine B) :
  initial_capital (loop data e) = initial_capital e.
Proof.
  revert e. induction data as [|b data IH]; intro e; [reflexivity|].
  change (loop (b :: data) e) with (loop data (process_bar b e)).
  rewrite IH. apply process_bar_capital.
Qed.

(** The curve only grows: later bars leave earlier points in place. *)
Lemma loop_equity_prefix (data : list bar) (e : engine B) :
  exists pts,
    equity_curve (loop data e) = equity_curve e ++ pts /\
    length pts = length data.
Proof.
  revert e. induction data as [|b data IH]; intro e.
  - exists []. split; [symmetry; apply app_nil_r | reflexivity].
  - destruct (IH (process_bar b e)) as (pts & Hpts & Hlen).
    change (loop (b :: data) e) with (loop data (process_bar b e)).
    rewrite Hpts, process_bar_equity, <- app_assoc.
    eexists. split; [reflexivity|]. simpl. congruence.
Qed.

(** C7.  Take any run and any of its bars [b], processed after the bars
    [pre] and before the bars [post].  Processing [b] appends one equity
    point; it stays at [b]'s place in the finished curve; its total value
    is its cash plus its position value; and its cash, position value and
    price are the strategy's cash, the strategy's position times the
    close, and the close, all taken right after [b] was processed. *)
Theorem equity_point_consistent (pre post : list bar) (b : bar)
    (e : engine B) :
  let at_b := loop (pre ++ [b]) e in
  exists pt,
    equity_curve at_b = equity_curve (loop pre e) ++ [pt] /\
    nth_error (equity_curve (loop (pre ++ b :: post) e))
              (length (equity_curve e) + length pre) = Some pt /\
    e_value pt = e_cash pt + e_position_value pt /\
    e_position_value pt = position (strategy at_b) * e_price pt /\
    e_cash pt = cash (strategy at_b) /\
    e_price pt = close b /\
    e_datetime pt = datetime b.
Proof.
  cbv zeta. rewrite loop_snoc.
  eexists. split; [apply process_bar_equity|].
  split; [|repeat split].
  replace (pre ++ b :: post) with ((pre ++ [b]) ++ post)
    by (rewrite <- app_assoc; reflexivity).
  rewrite loop_app, loop_snoc.
  destruct (loop_equity_prefix post (process_bar b (loop pre e)))
    as (pts & -> & _).
  destruct (loop_equity_prefix pre e) as (pts' & Hpre & Hlen).
  rewrite process_bar_equity, Hpre, <- Hlen, <- length_app.
  rewrite <- app_assoc.
  rewrite nth_error_app2 by lia.
  rewrite Nat.sub_diag. reflexivity.
Qed.

End Loop.

(** ** The account invariant *)

(** C1.  The invariant [position >= 0] and [position > 0 <-> entry_price
    is not None] is broken by the code: in a run of the default
    [MACrossStrategy] over 21 bars with non-negative prices, the averages
    cross on the last bar, which closes at 0; the engine sets the entry
    price, the sizing is 0, [buy] accepts it, and the run ends holding
    nothing with an entry price of 0 and a logged BUY of size 0. *)
Lemma account_invariant_fails_at_zero_close :
  Forall (fun b => 0 <= close b) zero_close_bars /\
  strategy (ma_loop zero_close_bars 100000) =
    {| position := 0; cash := 100000; entry_price := Some 0 |} /\
  trades (ma_loop zero_close_bars 100000) =
    [{| t_datetime := 20; t_type := BUY; t_price := 0; t_size := 0 |}] /\
  ~ account_inv (strategy (ma_loop zero_close_bars 100000)).
Proof.
  assert (H : strategy (ma_loop zero_close_bars 100000) =
              {| position := 0; cash := 100000; entry_price := Some 0 |})
    by (vm_compute; reflexivity).
  split; [|split; [exact H | split]].
  - unfold zero_close_bars. simpl. repeat constructor; discriminate.
  - vm_compute. reflexivity.
  - rewrite H. intros [_ [_ Hset]]. simpl in Hset.
    apply (Qlt_irrefl 0). apply Hset. discriminate.
Qed.

(** The same at positive prices, in a run that starts without capital. *)
Lemma account_invariant_fails_at_zero_capital :
  position (strategy (ma_loop rising_bars 0)) == 0 /\
  entry_price (strategy (ma_loop rising_bars 0)) = Some 10 /\
  ~ account_inv (strategy (ma_loop rising_bars 0)).
Proof.
  assert (Hp : position (strategy (ma_loop rising_bars 0)) == 0)
    by (vm_compute; reflexivity).
  assert (He : entry_price (strategy (ma_loop rising_bars 0)) = Some 10)
    by (vm_compute; reflexivity).
  split; [exact Hp | split; [exact He|]].
  intros [_ [_ Hset]]. rewrite He, Hp in Hset.
  apply (Qlt_irrefl 0). apply Hset. discriminate.
Qed.

(** A zero-size buy on the start-of-run account, and in the loop on the
    last of the bars above, after the first twenty. *)
Lemma zero_size_buy_witness :
  (exists a',
     buy 0 (Some 0) (strategy (ma_loop [] 100000)) = (true, a') /\
     position a' = 0 /\
     cash a' == cash (strategy (ma_loop [] 100000)) /\
     entry_price a' = Some 0) /\
  (exists t,
     trades (@process_bar _ ma_default (flat_bar 20 0)
               (ma_loop (firstn 20 zero_close_bars) 100000)) =
       trades (ma_loop (firstn 20 zero_close_bars) 100000) ++ [t] /\
     t_type t = BUY /\ t_size t == 0).
Proof.
  destruct (@zero_size_buy _ ma_default 0 (strategy (ma_loop [] 100000)))
    as [Hbuy Hloop].
  - reflexivity.
  - discriminate.
  - split; [exact Hbuy|].
    destruct (Hloop (ma_loop (firstn 20 zero_close_bars) 100000)
                (flat_bar 20 0)) as (t & Ht & Hty & _ & Hsz & _).
    + vm_compute. reflexivity.
    + vm_compute. reflexivity.
    + reflexivity.
    + exists t. split; [exact Ht | split; assumption].
Defined.

(** [reset()] after a run with a capital of 50000 leaves 100000 in cash. *)
Lemma reset_ignores_run_capital :
  initial_capital (ma_loop rising_bars 50000) = 50000 /\
  cash (strategy (@strategy_reset _ ma_default (ma_loop rising_bars 50000)))
    = 100000 /\
  ~ cash (strategy (@strategy_reset _ ma_default (ma_loop rising_bars 50000)))
    == initial_capital (ma_loop rising_bars 50000).
Proof.
  assert (Hcap : initial_capital (ma_loop rising_bars 50000) = 50000)
    by apply (@loop_capital _ ma_default).
  rewrite Hcap. repeat split. discriminate.
Qed.

(** ** Empty input *)

(** C6.  Over an empty bar series a quiet run returns the four-key report
    (final value the initial capital, return 0, no trades, the text
    ['No data']); the default, verbose run raises [IndexError] from its
    opening [print], before the loop and before that report is built. *)
Theorem run_empty_series {B : Type} {strat : Strategy B}
    {float_steps : FloatSteps} (e : engine B) :
  run false [] e =
    Ok (NoData (initial_capital e) 0 0 "No data", start e) /\
  run true [] e = Raise IndexError.
Proof.
  split; reflexivity.
Qed.

(** ** Trade statistics *)

Lemma profits_loop_spec (buys sells : list trade) (n : nat) :
  forall (k : nat) (acc : list Q),
    (k + n <= length buys)%nat -> (k + n <= length sells)%nat ->
    match profits_loop buys sells (seq k n) acc with
    | Ok ps =>
        exists new,
          ps = acc ++ new /\ length new = n /\
          forall i b s,
            nth_error buys (k + i) = Some b ->
            nth_error sells (k + i) = Some s ->
            (i < n)%nat ->
            nth_error new i = Some (profit_pct b s)
    | Raise ex =>
        ex = ZeroDivisionError /\
        exists i b,
          (k <= i < k + n)%nat /\ nth_error buys i = Some b /\ t_price b == 0
    end.
Proof.
  induction n as [|n IH]; intros k acc Hb Hs; simpl.
  - exists []. split; [symmetry; apply app_nil_r|].
    split; [reflexivity|]. intros; lia.
  - unfold pyindex.
    destruct (nth_error buys k) as [b0|] eqn:Eb;
      [|apply nth_error_None in Eb; lia].
    destruct (nth_error sells k) as [s0|] eqn:Es;
      [|apply nth_error_None in Es; lia].
    simpl. unfold pydiv.
    by_cases_eq (t_price b0) 0 E; simpl.
    + split; [reflexivity|]. exists k, b0. repeat split; auto; lia.
    + specialize (IH (S k)
        (acc ++ [(t_price s0 - t_price b0) / t_price b0 * 100])).
      destruct (profits_loop _ _ _ _) as [ps|ex].
      * destruct IH as (new & -> & Hlen & Hnth); [lia | lia |].
        exists ((t_price s0 - t_price b0) / t_price b0 * 100 :: new).
        split; [rewrite <- app_assoc; reflexivity|].
        split; [simpl; lia|].
        intros [|i] b s Hbi Hsi Hi.
        -- rewrite Nat.add_0_r in Hbi, Hsi.
           assert (b = b0) by congruence. assert (s = s0) by congruence.
           subst. reflexivity.
        -- rewrite Nat.add_succ_r in Hbi, Hsi.
           simpl. apply (Hnth i b s); [exact Hbi | exact Hsi | lia].
      * destruct IH as (-> & i & b & Hi & Hbi & Hz); [lia | lia |].
        split; [reflexivity|]. exists i, b. repeat split; auto; lia.
Qed.

Lemma profits_loop_more_buys (buys extra sells : list trade)
    (range : list nat) :
  Forall (fun i => (i < length buys)%nat) range ->
  forall acc,
    profits_loop (buys ++ extra) sells range acc =
    profits_loop buys sells range acc.
Proof.
  induction 1 as [|i range Hi _ IH]; intro acc; [reflexivity|].
  simpl. unfold pyindex at 1 3. rewrite nth_error_app1 by exact Hi.
  destruct (nth_error buys i); [|reflexivity]. simpl.
  destruct (pyindex sells i); [|reflexivity]. simpl.
  destruct (pydiv _ _); [|reflexivity]. simpl. apply IH.
Qed.

Lemma trailing_buys (trades extra : list trade) :
  Forall (fun t => t_type t = BUY) extra ->
  buy_trades (trades ++ extra) = buy_trades trades ++ extra /\
  sell_trades (trades ++ extra) = sell_trades trades.
Proof.
  intro Hall. unfold buy_trades, sell_trades. rewrite !filter_app.
  assert (Hb : filter (fun t => side_eqb (t_type t) BUY) extra = extra).
  { induction Hall as [|t extra Ht _ IH]; [reflexivity|].
    simpl. rewrite Ht. simpl. f_equal. exact IH. }
  assert (Hs : filter (fun t => side_eqb (t_type t) SELL) extra = []).
  { clear Hb. induction Hall as [|t extra Ht _ IH]; [reflexivity|].
    simpl. rewrite Ht. simpl. exact IH. }
  rewrite Hb, Hs, app_nil_r. split; reflexivity.
Qed.

Lemma tally_won_lost (profits : list Q) :
  tally profits (won_trades profits) (lost_trades profits).
Proof.
  unfold won_trades, lost_trades.
  induction profits as [|p ps IH]; simpl; [constructor|].
  unfold Qltb at 1.
  by_cases_le p 0 Hp; simpl.
  - apply tally_lost; assumption.
  - apply tally_won; assumption.
Qed.

Lemma tally_total (profits : list Q) (won lost : nat) :
  tally profits won lost -> (won + lost = length profits)%nat.
Proof.
  induction 1; simpl; lia.
Qed.

Lemma pyindex_first_ok {A : Type} (l : list A) :
  l <> [] -> exists x, pyindex l 0 = Ok x.
Proof.
  destruct l as [|x l]; [contradiction|]. intros _. exists x. reflexivity.
Qed.

Lemma pyindex_last_ok {A : Type} (l : list A) :
  l <> [] -> exists x, pyindex_last l = Ok x.
Proof.
  intro H. unfold pyindex_last, pyindex.
  destruct (nth_error l (length l - 1)) as [x|] eqn:E; [exists x; reflexivity|].
  apply nth_error_None in E. destruct l; [contradiction | simpl in E; lia].
Qed.

Lemma pydiv_ok (a b : Q) : ~ b == 0 -> pydiv a b = Ok (a / b).
Proof.
  intro H. unfold pydiv. apply Qeq_bool_false in H. rewrite H. reflexivity.
Qed.

Lemma Qnat_nonzero (n : nat) : (0 < n)%nat -> ~ Qnat n == 0.
Proof.
  intros H E. unfold Qnat, Qeq in E. simpl in E. lia.
Qed.

Lemma profit_factor_ok (profits : list Q) :
  exists v, _calculate_profit_factor profits = Ok v.
Proof.
  unfold _calculate_profit_factor.
  by_cases_eq (gross_loss profits) 0 Hl; [eexists; reflexivity|].
  rewrite (pydiv_ok _ _ Hl). eexists. reflexivity.
Qed.

Lemma pyindex_last_last {A : Type} (l : list A) (d : A) :
  l <> [] -> pyindex_last l = Ok (last l d).
Proof.
  intros H. unfold pyindex_last, pyindex.
  assert (E : nth_error l (length l - 1) = Some (last l d)).
  { induction l as [|x l IH]; [contradiction|].
    destruct l as [|y l]; [reflexivity|].
    assert (Hne : y :: l <> []) by discriminate.
    specialize (IH Hne). simpl in IH. rewrite Nat.sub_0_r in IH.
    simpl. exact IH. }
  rewrite E. reflexivity.
Qed.

Lemma pyindex_first_hd {A : Type} (l : list A) (d : A) :
  l <> [] -> pyindex l 0 = Ok (hd d l).
Proof. destruct l; [contradiction | reflexivity]. Qed.

(** The entries that a comprehension keeps, by their place in the log. *)
Lemma count_side_filter (s : side) (log : list trade) :
  length (filter (fun t => side_eqb (t_type t) s) log) = count_side s log.
Proof.
  unfold count_side. induction log as [|t log IH]; [reflexivity|].
  simpl. destruct (side_eq_dec (t_type t) s) as [E|N].
  - rewrite E. destruct s; simpl; congruence.
  - destruct (t_type t), s; simpl; congruence.
Qed.

Lemma side_eqb_true (a b : side) : side_eqb a b = true <-> a = b.
Proof. destruct a, b; simpl; split; congruence. Qed.

Lemma nth_of_side_filter (s : side) (log : list trade) :
  forall i t,
    nth_error (filter (fun t => side_eqb (t_type t) s) log) i = Some t <->
    is_nth_of_side s i t log.
Proof.
  induction log as [|x log IH]; intros i t.
  - split.
    + destruct i; discriminate.
    + intros (pre & post & E & _). destruct pre; discriminate E.
  - simpl filter. split.
    + intro H. destruct (side_eqb (t_type x) s) eqn:Ex.
      * destruct i as [|i].
        -- injection H as <-. exists [], log. repeat split.
           apply side_eqb_true. exact Ex.
        -- apply IH in H as (pre & post & -> & Ht & Hc).
           exists (x :: pre), post. repeat split; [exact Ht|].
           rewrite <- count_side_filter in *. simpl. rewrite Ex. simpl.
           congruence.
      * apply IH in H as (pre & post & -> & Ht & Hc).
        exists (x :: pre), post. repeat split; [exact Ht|].
        rewrite <- count_side_filter in *. simpl. rewrite Ex. exact Hc.
    + intros (pre & post & E & Ht & Hc).
      rewrite <- count_side_filter in Hc.
      destruct pre as [|y pre].
      * injection E as -> ->. apply side_eqb_true in Ht. rewrite Ht.
        simpl in Hc. subst i. reflexivity.
      * injection E as <- ->. simpl in Hc.
        destruct (side_eqb (t_type x) s).
        -- simpl in Hc. destruct i as [|i]; [discriminate|].
           apply IH. exists pre, post. repeat split; [exact Ht|].
           rewrite <- count_side_filter. congruence.
        -- apply IH. exists pre, post. repeat split; [exact Ht|].
           rewrite <- count_side_filter. exact Hc.
Qed.

Ltac bind_inv H :=
  repeat match type of H with
         | bind ?m ?k = Ok _ =>
             let x := fresh "x" in
             let E := fresh "E" in
             destruct m as [x|] eqn:E;
             [change (bind (Ok x) k) with (k x) in H; cbv beta in H
             |discriminate H]
         end.

Section ReportCounts.

Context {B : Type} {float_steps : FloatSteps}.

(** The counts of a full report are those of the trade log. *)
Lemma metrics_trade_counts (data : list bar) (e : engine B) (m : metrics) :
  _calculate_metrics data e = Ok (Report m) ->
  exists profits,
    profits_of (trades e) = Ok profits /\
    m_total_trades m = total_trades (trades e) /\
    m_won_trades m = won_trades profits /\
    m_lost_trades m = lost_trades profits /\
    _calculate_profit_factor profits = Ok (m_profit_factor m).
Proof.
  unfold _calculate_metrics. intro H.
  destruct (equity_curve e) as [|pt pts]; [discriminate H|].
  bind_inv H.
  injection H as <-. simpl. eauto 6.
Qed.

(** What [_calculate_metrics] returns once its exact steps go through: it
    raises what a float step raises, and otherwise returns the full
    report. *)
Lemma metrics_outcome (data : list bar) (e : engine B) (profits : list Q)
    (dd : Q) :
  equity_curve e <> [] -> data <> [] -> ~ initial_capital e == 0 ->
  profits_of (trades e) = Ok profits ->
  _calculate_max_drawdown (map e_value (equity_curve e)) = Ok dd ->
  (forall ex,
     sharpe_ratio_of (map e_value (equity_curve e)) = Raise ex ->
     _calculate_metrics data e = Raise ex) /\
  (forall sharpe ex,
     sharpe_ratio_of (map e_value (equity_curve e)) = Ok sharpe ->
     annual_return_of (total_return_pct e) (run_days data) = Raise ex ->
     _calculate_metrics data e = Raise ex) /\
  (forall sharpe annual,
     sharpe_ratio_of (map e_value (equity_curve e)) = Ok sharpe ->
     annual_return_of (total_return_pct e) (run_days data) = Ok annual ->
     exists m,
       _calculate_metrics data e = Ok (Report m) /\
       m_initial_capital m = initial_capital e /\
       m_sharpe_ratio m = sharpe /\
       m_annual_return_pct m = annual /\
       m_total_trades m = total_trades (trades e) /\
       m_won_trades m = won_trades profits /\
       m_lost_trades m = lost_trades profits /\
       m_max_consecutive_losses m =
         _calculate_max_consecutive_losses profits /\
       m_trading_days m = length data /\
       m_trades m = trades e /\
       m_equity_curve m = equity_curve e /\
       m_signals m = signals e).
Proof.
  intros Hcurve Hdata Hcap Hprofits Hdd.
  assert (Hvals : map e_value (equity_curve e) <> [])
    by (destruct (equity_curve e); [contradiction | discriminate]).
  assert (Hdates : map datetime data <> [])
    by (destruct data; [contradiction | discriminate]).
  pose proof (pyindex_last_last _ 0 Hvals) as Hfinal.
  pose proof (pyindex_last_last _ 0%Z Hdates) as Hlast.
  pose proof (pyindex_first_hd _ 0%Z Hdates) as Hfirst.
  destruct (profit_factor_ok profits) as [pf Hpf].
  assert (Hwin : exists w,
             (if (0 <? total_trades (trades e))%nat
              then bind (pydiv (Qnat (won_trades profits))
                           (Qnat (total_trades (trades e))))
                     (fun q => Ok (round2 (q * 100)))
              else Ok 0) = Ok w).
  { destruct (Nat.ltb_spec 0 (total_trades (trades e))); [|eexists; reflexivity].
    rewrite (pydiv_ok _ _ (Qnat_nonzero _ H)). eexists. reflexivity. }
  destruct Hwin as [w Hwin].
  assert (Havg : exists a,
             match profits with
             | [] => Ok 0
             | _ :: _ => bind (pydiv (BacktestEngine.pysum profits)
                                 (Qnat (length profits)))
                           (fun q => Ok (round2 q))
             end = Ok a).
  { destruct profits as [|x ps]; [eexists; reflexivity|].
    rewrite (pydiv_ok _ (Qnat (length (x :: ps))))
      by (apply Qnat_nonzero; simpl; lia).
    eexists. reflexivity. }
  destruct Havg as [a Havg].
  assert (Hhead :
             _calculate_metrics data e =
             bind (sharpe_ratio_of (map e_value (equity_curve e)))
               (fun sharpe =>
                  bind (annual_return_of (total_return_pct e) (run_days data))
                    (fun annual =>
                       Ok (Report {|
                         m_initial_capital := initial_capital e;
                         m_final_value := round2 (last_value e);
                         m_return_pct := round2 (total_return_pct e);
                         m_annual_return_pct := annual;
                         m_max_drawdown_pct := round2 dd;
                         m_sharpe_ratio := sharpe;
                         m_total_trades := total_trades (trades e);
                         m_won_trades := won_trades profits;
                         m_lost_trades := lost_trades profits;
                         m_win_rate := w;
                         m_avg_profit_pct := a;
                         m_max_profit_pct :=
                           match profits with
                           | [] => 0
                           | p :: ps => round2 (pymax p ps)
                           end;
                         m_max_loss_pct :=
                           match profits with
                           | [] => 0
                           | p :: ps => round2 (pymin p ps)
                           end;
                         m_max_consecutive_losses :=
                           _calculate_max_consecutive_losses profits;
                         m_profit_factor := pf;
                         m_start_date := hd 0%Z (map datetime data);
                         m_end_date := last (map datetime data) 0%Z;
                         m_trading_days := length data;
                         m_trades := trades e;
                         m_equity_curve := equity_curve e;
                         m_signals := signals e |})))).
  { unfold _calculate_metrics.
    destruct (equity_curve e) as [|pt pts] eqn:E; [contradiction|].
    rewrite Hfinal. cbn [bind]. rewrite (pydiv_ok _ _ Hcap). cbn [bind].
    rewrite Hprofits. cbn [bind]. rewrite Hdd. cbn [bind].
    destruct (sharpe_ratio_of _) as [sharpe|ex]; [|reflexivity]. cbn [bind].
    rewrite Hlast. cbn [bind]. rewrite Hfirst. cbn [bind].
    unfold total_return_pct, last_value, run_days. rewrite E.
    destruct (annual_return_of _ _) as [annual|ex]; [|reflexivity].
    cbn [bind]. rewrite Hwin. cbn [bind]. rewrite Havg. cbn [bind].
    rewrite Hpf. reflexivity. }
  rewrite Hhead. split; [|split].
  - intros ex ->. reflexivity.
  - intros sharpe ex -> ->. reflexivity.
  - intros sharpe annual -> ->. cbn [bind]. eexists. split; [reflexivity|].
    simpl. repeat split.
Qed.

End ReportCounts.

(** C8.  For every trade log, with #BUY and #SELL the numbers of its BUY
    and SELL entries and BUY[i], SELL[i] the [i]-th entry of the side in
    arrival order:
    - the two comprehensions keep exactly the BUY and the SELL entries, in
      order, and [total_trades] is [min(#BUY, #SELL)];
    - when there are at least as many buys as sells, buys appended to the
      log change neither that number nor the profits;
    - the profit list has one entry per completed trade, entry [i] being
      the profit of BUY[i] against SELL[i]; every entry counts once, as won
      when positive and as lost when zero or negative; the one way the
      profits can fail is the division by a BUY[i] price of 0;
    - a report that is returned carries these counts, and the full report
      is returned whenever the curve and the data are not empty, the
      capital is not 0, the profits and the drawdown are computed and the
      float steps return. *)
Theorem trade_statistics {B : Type} {float_steps : FloatSteps}
    (log : list trade) :
  (forall i b, nth_error (buy_trades log) i = Some b <->
               is_nth_of_side BUY i b log) /\
  (forall i s, nth_error (sell_trades log) i = Some s <->
               is_nth_of_side SELL i s log) /\
  total_trades log = Nat.min (count_side BUY log) (count_side SELL log) /\
  (forall extra,
     Forall (fun t => t_type t = BUY) extra ->
     (count_side SELL log <= count_side BUY log)%nat ->
     total_trades (log ++ extra) = total_trades log /\
     profits_of (log ++ extra) = profits_of log) /\
  match profits_of log with
  | Ok profits =>
      length profits = Nat.min (count_side BUY log) (count_side SELL log) /\
      (forall i b s,
         is_nth_of_side BUY i b log -> is_nth_of_side SELL i s log ->
         nth_error profits i = Some (profit_pct b s)) /\
      tally profits (won_trades profits) (lost_trades profits) /\
      (won_trades profits + lost_trades profits =
         Nat.min (count_side BUY log) (count_side SELL log))%nat
  | Raise ex =>
      ex = ZeroDivisionError /\
      exists i b,
        (i < Nat.min (count_side BUY log) (count_side SELL log))%nat /\
        is_nth_of_side BUY i b log /\ t_price b == 0
  end /\
  (forall (data : list bar) (e : engine B) (m : metrics),
     trades e = log ->
     _calculate_metrics data e = Ok (Report m) ->
     exists profits,
       profits_of log = Ok profits /\
       m_total_trades m = Nat.min (count_side BUY log) (count_side SELL log) /\
       m_won_trades m = won_trades profits /\
       m_lost_trades m = lost_trades profits) /\
  (forall (data : list bar) (e : engine B) profits dd sharpe annual,
     trades e = log ->
     equity_curve e <> [] -> data <> [] -> ~ initial_capital e == 0 ->
     profits_of log = Ok profits ->
     _calculate_max_drawdown (map e_value (equity_curve e)) = Ok dd ->
     sharpe_ratio_of (map e_value (equity_curve e)) = Ok sharpe ->
     annual_return_of (total_return_pct e) (run_days data) = Ok annual ->
     exists m,
       _calculate_metrics data e = Ok (Report m) /\
       m_total_trades m = Nat.min (count_side BUY log) (count_side SELL log) /\
       m_won_trades m = won_trades profits /\
       m_lost_trades m = lost_trades profits).
Proof.
  assert (Hb : length (buy_trades log) = count_side BUY log)
    by apply count_side_filter.
  assert (Hs : length (sell_trades log) = count_side SELL log)
    by apply count_side_filter.
  assert (Ht : total_trades log =
               Nat.min (count_side BUY log) (count_side SELL log))
    by (unfold total_trades; rewrite Hb, Hs; reflexivity).
  split; [apply nth_of_side_filter|]. split; [apply nth_of_side_filter|].
  split; [exact Ht|]. split; [|split; [|split]].
  - intros extra Hextra Hle.
    destruct (trailing_buys log extra Hextra) as [Hbx Hsx].
    assert (Htx : total_trades (log ++ extra) = total_trades log).
    { unfold total_trades. rewrite Hbx, Hsx, length_app. lia. }
    split; [exact Htx|].
    unfold profits_of. rewrite Htx, Hbx, Hsx.
    apply profits_loop_more_buys.
    apply Forall_forall. intros i Hi. apply in_seq in Hi.
    unfold total_trades in Hi. lia.
  - unfold profits_of.
    pose proof (profits_loop_spec (buy_trades log) (sell_trades log)
                  (total_trades log) 0 []) as H.
    destruct (profits_loop _ _ _ _) as [ps|ex].
    + destruct H as (new & -> & Hlen & Hnth);
        [unfold total_trades; lia | unfold total_trades; lia |].
      simpl. rewrite <- Ht. split; [exact Hlen|]. split; [|split].
      * intros i b s Hbi Hsi.
        apply nth_of_side_filter in Hbi. apply nth_of_side_filter in Hsi.
        apply (Hnth i b s Hbi Hsi).
        assert (i < length (buy_trades log))%nat
          by (apply nth_error_Some; unfold buy_trades; congruence).
        assert (i < length (sell_trades log))%nat
          by (apply nth_error_Some; unfold sell_trades; congruence).
        unfold total_trades. lia.
      * apply tally_won_lost.
      * rewrite <- Hlen. apply tally_total, tally_won_lost.
    + destruct H as (-> & i & b & Hi & Hbi & Hz);
        [unfold total_trades; lia | unfold total_trades; lia |].
      split; [reflexivity|]. exists i, b. rewrite <- Ht.
      split; [lia|]. split; [|exact Hz].
      apply nth_of_side_filter. exact Hbi.
  - intros data e m <- H.
    destruct (metrics_trade_counts data e m H) as (ps & ? & ? & ? & ? & _).
    exists ps. rewrite <- Ht. repeat split; assumption.
  - intros data e profits dd sharpe annual <- Hcurve Hdata Hcap Hp Hdd Hsh Han.
    destruct (metrics_outcome data e profits dd Hcurve Hdata Hcap Hp Hdd)
      as (_ & _ & Hok).
    destruct (Hok sharpe annual Hsh Han)
      as (m & Hm & _ & _ & _ & H1 & H2 & H3 & _).
    exists m. rewrite <- Ht. repeat split; assumption.
Qed.

(** ** Profit factor *)







(** ** Checks on small inputs *)

Example sell_partial :
  sell 10 (Some 3) {| position := 5; cash := 0; entry_price := Some 8 |} =
    (true, {| position := 2; cash := 30; entry_price := Some 8 |}).
Proof. reflexivity. Qed.

Example sell_clamped :
  sell 10 (Some 9) {| position := 5; cash := 0; entry_price := Some 8 |} =
    (true, {| position := 0; cash := 50; entry_price := None |}).
Proof. reflexivity. Qed.

Example sell_flat :
  sell 10 None BaseStrategy.init = (false, BaseStrategy.init).
Proof. reflexivity. Qed.

Example buy_insufficient_cash :
  buy 10 (Some 5) {| position := 0; cash := 49; entry_price := None |} =
    (false, {| position := 0; cash := 49; entry_price := None |}).
Proof. reflexivity. Qed.

Example buy_all_cash :
  buy 10 (Some 5) {| position := 0; cash := 50; entry_price := None |} =
    (true, {| position := 5; cash := 0; entry_price := Some 10 |}).
Proof. reflexivity. Qed.

Example buy_default_size_flat :
  buy 10 None BaseStrategy.init =
    (true, {| position := 0; cash := 100000; entry_price := Some 10 |}).
Proof. reflexivity. Qed.

(** Two buys and one sell at the same price: one completed trade, and the
    breakeven pair is lost. *)
Example breakeven_is_lost :
  let log := [trade_at BUY 10 1; trade_at SELL 10 1; trade_at BUY 5 1] in
  total_trades log = 1%nat /\
  exists profits,
    profits_of log = Ok profits /\
    won_trades profits = 0%nat /\ lost_trades profits = 1%nat.
Proof. split; [reflexivity|]. eexists. repeat split. Qed.

(** A zero-size buy at price 0 that is later paired with a sell makes the
    profit computation divide by zero. *)
Example pair_bought_at_zero :
  profits_of [trade_at BUY 0 0; trade_at BUY 10 1; trade_at SELL 12 1] =
    Raise ZeroDivisionError.
Proof. reflexivity. Qed.

Example profit_factor_infinite :
  _calculate_profit_factor [2; 0] = Ok PosInf.
Proof. reflexivity. Qed.

Example profit_factor_no_trades :
  _calculate_profit_factor [] = Ok (Finite 0).
Proof. reflexivity. Qed.

Example profit_factor_only_breakeven :
  _calculate_profit_factor [0; 0] = Ok (Finite 0).
Proof. reflexivity. Qed.

Example round2_ties_to_even :
  round2 (5 # 1000) == 0 /\ round2 (15 # 1000) == 2 # 100 /\
  round2 (-26 # 1000) == -3 # 100.
Proof. repeat split. Qed.

(** The run over the rising bars buys once, on the last bar, with 95% of
    the capital. *)
Example rising_run_buys_once :
  trades (ma_loop rising_bars 100000) =
    [{| t_datetime := 20; t_type := BUY; t_price := 10;
        t_size := position (strategy (ma_loop rising_bars 100000)) |}] /\
  position (strategy (ma_loop rising_bars 100000)) == 9500 /\
  cash (strategy (ma_loop rising_bars 100000)) == 5000.
Proof. vm_compute. repeat split. Qed.

(** * Further properties of the account and the loop *)

(** ** What one bar does to the logs *)

Section BarEffects.

Context {B : Type} {strat : Strategy B}.

(** The trade log after a bar, branch by branch. *)
Lemma process_bar_trades (b : bar) (e : engine B) :
  trades (process_bar b e) =
    if should_buy (strategy e) (on_bar b (buffers e)) then
      if fst (buy (close b)
                (Some (get_position_size
                         (set_entry_price (Some (close b)) (strategy e))))
                (set_entry_price (Some (close b)) (strategy e)))
      then trades e ++ [{| t_datetime := datetime b; t_type := BUY;
                           t_price := close b;
                           t_size := position (strategy (process_bar b e)) |}]
      else trades e
    else if should_sell (strategy e) (on_bar b (buffers e)) then
      if fst (sell (close b) None (strategy e))
      then trades e ++ [{| t_datetime := datetime b; t_type := SELL;
                           t_price := close b;
                           t_size := position (strategy e) |}]
      else trades e
    else trades e.
Proof.
  unfold process_bar, process_bar_calls.
  destruct (should_buy _ _).
  - destruct (buy _ _ _) as [[|] acct]; reflexivity.
  - destruct (should_sell _ _); [|reflexivity].
    destruct (sell _ _ _) as [[|] acct]; reflexivity.
Qed.


(** Every bar logs a signal exactly when it logs a trade, with the same
    side, price and time. *)
Lemma process_bar_signals (b : bar) (e : engine B) :
  signals e = map signal_of (trades e) ->
  signals (process_bar b e) = map signal_of (trades (process_bar b e)).
Proof.
  intro H. unfold process_bar, process_bar_calls.
  destruct (should_buy _ _).
  - destruct (buy _ _ _) as [[|] acct]; simpl; [|exact H].
    rewrite map_app, H. reflexivity.
  - destruct (should_sell _ _); [|exact H].
    destruct (sell _ _ _) as [[|] acct]; simpl; [|exact H].
    rewrite map_app, H. reflexivity.
Qed.

(** X4.  Trading at the close does not change the total value: whatever the
    bar does, the equity point it appends is worth the cash and position
    held before the bar, marked at this bar's close. *)
Theorem trading_is_value_neutral (b : bar) (e : engine B) :
  0 <= position (strategy e) ->
  exists pt,
    equity_curve (process_bar b e) = equity_curve e ++ [pt] /\
    e_value pt == cash (strategy e) + position (strategy e) * close b.
Proof.
  intro Hpos. eexists. split; [apply process_bar_equity|]. simpl.
  rewrite process_bar_account.
  destruct (should_buy _ _).
  - unfold buy. simpl position. simpl cash.
    by_cases_lt 0 (position (strategy e)) Hp; [reflexivity|].
    match goal with
    | |- context [Qltb (cash (strategy e)) ?c] =>
        by_cases_lt (cash (strategy e)) c Hc
    end; [reflexivity|].
    simpl. assert (Hz : position (strategy e) == 0) by lra.
    rewrite Hz. ring.
  - destruct (should_sell _ _); [|reflexivity].
    unfold sell.
    by_cases_le (position (strategy e)) 0 Hp; [reflexivity|].
    by_cases_lt (position (strategy e)) (position (strategy e)) Hx.
    { exfalso. apply (Qlt_irrefl _ Hx). }
    simpl. ring.
Qed.

End BarEffects.

Lemma trading_is_value_neutral_witness :
  exists pt,
    equity_curve (@process_bar _ ma_default (flat_bar 20 10)
                    (ma_loop (firstn 20 rising_bars) 100000)) =
      equity_curve (ma_loop (firstn 20 rising_bars) 100000) ++ [pt] /\
    e_value pt ==
      cash (strategy (ma_loop (firstn 20 rising_bars) 100000)) +
      position (strategy (ma_loop (firstn 20 rising_bars) 100000)) *
      close (flat_bar 20 10).
Proof.
  apply (@trading_is_value_neutral _ ma_default).
  vm_compute. discriminate.
Defined.

(** ** Invariants of a run *)

Section RunInvariants.

Context {B : Type} {strat : Strategy B}.

Lemma process_bar_solvent (b : bar) (e : engine B) :
  0 <= close b ->
  0 <= position (strategy e) -> 0 <= cash (strategy e) ->
  0 <= position (strategy (process_bar b e)) /\
  0 <= cash (strategy (process_bar b e)).
Proof.
  intros Hclose Hpos Hcash. rewrite process_bar_account.
  destruct (should_buy _ _).
  - unfold buy. simpl position. simpl cash.
    by_cases_lt 0 (position (strategy e)) Hp; [simpl; split; assumption|].
    match goal with
    | |- context [Qltb (cash (strategy e)) ?c] =>
        by_cases_lt (cash (strategy e)) c Hc
    end; [simpl; split; assumption|].
    simpl. split; [|lra].
    unfold get_position_size. simpl.
    by_cases_eq (close b) 0 E; simpl; [apply Qle_refl|].
    assert (0 < close b).
    { apply Qle_lteq in Hclose as [H|H]; [exact H|].
      exfalso. apply E. symmetry. exact H. }
    apply Qle_shift_div_l; [assumption|]. nra.
  - destruct (should_sell _ _); [|split; assumption].
    unfold sell.
    by_cases_le (position (strategy e)) 0 Hp; [simpl; split; assumption|].
    by_cases_lt (position (strategy e)) (position (strategy e)) Hx.
    { exfalso. apply (Qlt_irrefl _ Hx). }
    simpl. split; [lra|]. nra.
Qed.

(** X5.  With a non-negative capital and non-negative closes the account is
    never short and never overdrawn, at the start and after every bar
    (bars that close at 0 included). *)
Theorem never_short_never_overdrawn (data pre post : list bar)
    (e : engine B) :
  0 <= initial_capital e ->
  Forall (fun b => 0 <= close b) data ->
  data = pre ++ post ->
  0 <= position (strategy (loop pre (start e))) /\
  0 <= cash (strategy (loop pre (start e))).
Proof.
  intros Hcap Hall ->. apply Forall_app in Hall as [Hpre _].
  assert (H0 : 0 <= position (strategy (start e)) /\
               0 <= cash (strategy (start e)))
    by (simpl; split; [apply Qle_refl | exact Hcap]).
  revert H0. generalize (start e) as e0.
  induction Hpre as [|b pre Hb _ IH]; intros e0 [Hp Hc]; [split; assumption|].
  change (loop (b :: pre) e0) with (loop pre (process_bar b e0)).
  apply IH. apply process_bar_solvent; assumption.
Qed.

(** X6.  The three logs stay in step: one equity point per bar, one signal per
    trade (same side, price and time), and no more trades than bars. *)
Theorem logs_in_step (data : list bar) (e : engine B) :
  let e' := loop data (start e) in
  length (equity_curve e') = length data /\
  signals e' = map signal_of (trades e') /\
  (length (trades e') <= length data)%nat /\
  map e_datetime (equity_curve e') = map datetime data /\
  map e_price (equity_curve e') = map close data.
Proof.
  cbv zeta.
  assert (G : forall e0 : engine B,
            signals e0 = map signal_of (trades e0) ->
            length (equity_curve (loop data e0)) =
              (length (equity_curve e0) + length data)%nat /\
            signals (loop data e0) = map signal_of (trades (loop data e0)) /\
            (length (trades (loop data e0)) <=
               length (trades e0) + length data)%nat /\
            map e_datetime (equity_curve (loop data e0)) =
              map e_datetime (equity_curve e0) ++ map datetime data /\
            map e_price (equity_curve (loop data e0)) =
              map e_price (equity_curve e0) ++ map close data).
  { induction data as [|b data IH]; intros e0 Hs.
    - simpl. rewrite !app_nil_r. repeat split; auto; lia.
    - change (loop (b :: data) e0) with (loop data (process_bar b e0)).
      destruct (IH (process_bar b e0) (process_bar_signals b e0 Hs))
        as (H1 & H2 & H3 & H4 & H5).
      rewrite H1, H4, H5, process_bar_equity, !map_app, length_app.
      rewrite <- !app_assoc. simpl. repeat split; auto; try lia.
      assert (length (trades (process_bar b e0)) <= S (length (trades e0)))%nat.
      { rewrite process_bar_trades.
        repeat match goal with
               | |- context [if ?c then _ else _] => destruct c
               end; rewrite ?length_app; simpl; lia. }
      lia. }
  destruct (G (start e) eq_refl) as (H1 & H2 & H3 & H4 & H5).
  repeat split; assumption.
Qed.

End RunInvariants.

Lemma never_short_never_overdrawn_witness :
  0 <= position (strategy (ma_loop zero_close_bars 100000)) /\
  0 <= cash (strategy (ma_loop zero_close_bars 100000)).
Proof.
  apply (@never_short_never_overdrawn _ ma_default zero_close_bars
           zero_close_bars [] (ma_engine 100000)).
  - discriminate.
  - unfold zero_close_bars. simpl. repeat constructor; discriminate.
  - symmetry. apply app_nil_r.
Defined.

(** ** Alternation of the trade log *)

Lemma alternates_snoc (log : list trade) (t : trade) :
  forall expect_buy,
    alternates expect_buy log ->
    t_type t = (if Bool.eqb expect_buy (Nat.even (length log))
                then BUY else SELL) ->
    alternates expect_buy (log ++ [t]).
Proof.
  induction log as [|x log IH]; intros eb Hlog Ht.
  - simpl. split; [|exact I]. destruct eb; exact Ht.
  - destruct Hlog as [Hx Hrest]. split; [exact Hx|].
    apply IH; [exact Hrest|]. rewrite Ht.
    change (length (x :: log)) with (S (length log)).
    rewrite Nat.even_succ, <- Nat.negb_even.
    destruct eb, (Nat.even (length log)); reflexivity.
Qed.

Lemma alternates_counts (log : list trade) :
  forall expect_buy,
    alternates expect_buy log ->
    let buys := length (buy_trades log) in
    let sells := length (sell_trades log) in
    if Nat.even (length log) then buys = sells
    else if expect_buy then buys = S sells else sells = S buys.
Proof.
  induction log as [|x log IH]; intros eb Hlog; [reflexivity|].
  destruct Hlog as [Hx Hrest]. apply IH in Hrest. cbv zeta in *.
  unfold buy_trades, sell_trades in *. simpl filter. rewrite Hx.
  change (length (x :: log)) with (S (length log)).
  rewrite Nat.even_succ, <- Nat.negb_even.
  destruct (Nat.even (length log)), eb; simpl in *; lia.
Qed.

Section Alternation.

Context {B : Type} {strat : Strategy B}.

Lemma loop_trades_prefix (data : list bar) (e : engine B) :
  exists more, trades (loop data e) = trades e ++ more.
Proof.
  revert e. induction data as [|b data IH]; intro e.
  - exists []. symmetry. apply app_nil_r.
  - change (loop (b :: data) e) with (loop data (process_bar b e)).
    destruct (IH (process_bar b e)) as [more ->].
    rewrite process_bar_trades.
    repeat match goal with
           | |- context [if ?c then _ else _] => destruct c
           end;
      rewrite <- ?app_assoc; eexists; reflexivity.
Qed.

(** A bar keeps the log in phase with the account, provided the BUY it
    may log has a positive size. *)
Lemma process_bar_in_phase (b : bar) (e : engine B) :
  in_phase e ->
  Forall (fun t => t_type t = BUY -> 0 < t_size t)
    (trades (process_bar b e)) ->
  in_phase (process_bar b e).
Proof.
  intros [Halt Hphase]. unfold in_phase.
  rewrite process_bar_trades, process_bar_account.
  destruct (should_buy _ _).
  - unfold buy. simpl position. simpl cash.
    by_cases_lt 0 (position (strategy e)) Hp;
      [simpl; intros _; split; assumption|].
    match goal with
    | |- context [Qltb (cash (strategy e)) ?c] =>
        by_cases_lt (cash (strategy e)) c Hc
    end; [simpl; intros _; split; assumption|].
    simpl. intro Hsizes.
    apply Forall_app in Hsizes as [_ Hnew].
    inversion Hnew as [|? ? Hsize _]; subst. simpl in Hsize.
    specialize (Hsize eq_refl).
    destruct (Nat.even (length (trades e))) eqn:Ev;
      [|exfalso; apply (Qlt_not_le _ _ Hphase Hp)].
    split.
    + apply alternates_snoc; [exact Halt|]. simpl. rewrite Ev. reflexivity.
    + rewrite length_app, Nat.add_1_r, Nat.even_succ, <- Nat.negb_even, Ev.
      simpl. exact Hsize.
  - destruct (should_sell _ _); [|intros _; split; assumption].
    unfold sell.
    by_cases_le (position (strategy e)) 0 Hp;
      [simpl; intros _; split; assumption|].
    by_cases_lt (position (strategy e)) (position (strategy e)) Hx.
    { exfalso. apply (Qlt_irrefl _ Hx). }
    simpl. intros _.
    destruct (Nat.even (length (trades e))) eqn:Ev;
      [exfalso; apply (Qlt_not_le _ _ Hp Hphase)|].
    split.
    + apply alternates_snoc; [exact Halt|]. simpl. rewrite Ev. reflexivity.
    + rewrite length_app, Nat.add_1_r, Nat.even_succ, <- Nat.negb_even, Ev.
      simpl. lra.
Qed.

Lemma loop_in_phase (data : list bar) (e : engine B) :
  in_phase e ->
  Forall (fun t => t_type t = BUY -> 0 < t_size t) (trades (loop data e)) ->
  in_phase (loop data e).
Proof.
  revert e. induction data as [|b data IH]; intros e Hph Hsizes;
    [exact Hph|].
  change (loop (b :: data) e) with (loop data (process_bar b e)) in *.
  apply IH; [|exact Hsizes].
  apply process_bar_in_phase; [exact Hph|].
  destruct (loop_trades_prefix data (process_bar b e)) as [more E].
  rewrite E in Hsizes. apply Forall_app in Hsizes as [H _]. exact H.
Qed.

(** X7.  In a run whose logged BUY trades all have a positive size, the
    trade log opens with a BUY and alternates BUY, SELL, BUY, ...: every
    sell closes the position opened by the buy just before it.  So the
    completed trades are as many as the sells, and the buys are as many as
    the sells when nothing is held and one more when a position is open.
    (A BUY of size 0, as a close of 0 gives, leaves the account flat and
    can be followed by another BUY.) *)
Theorem trades_alternate (data : list bar) (e : engine B) :
  Forall (fun t => t_type t = BUY -> 0 < t_size t)
    (trades (loop data (start e))) ->
  let e' := loop data (start e) in
  alternates true (trades e') /\
  total_trades (trades e') = length (sell_trades (trades e')) /\
  (position (strategy e') <= 0 ->
   length (buy_trades (trades e')) = length (sell_trades (trades e'))) /\
  (0 < position (strategy e') ->
   length (buy_trades (trades e')) = S (length (sell_trades (trades e')))).
Proof.
  intros Hsizes. cbv zeta.
  assert (Hph : in_phase (loop data (start e))).
  { apply loop_in_phase; [|exact Hsizes].
    split; simpl; [exact I | apply Qle_refl]. }
  destruct Hph as [Halt Hphase].
  pose proof (alternates_counts _ true Halt) as Hcount. cbv zeta in Hcount.
  split; [exact Halt|]. unfold total_trades.
  destruct (Nat.even (length (trades (loop data (start e))))).
  - repeat split; try lia. intro H. exfalso. apply (Qlt_not_le _ _ H Hphase).
  - repeat split; try lia. intro H. exfalso. apply (Qlt_not_le _ _ Hphase H).
Qed.

End Alternation.

(** A run that buys, sells and buys again. *)
Lemma trades_alternate_witness :
  map t_type
    (trades (@loop _ ma_short swing_bars (@start _ ma_short (ma_engine 100000))))
    = [BUY; SELL; BUY] /\
  alternates true
    (trades (@loop _ ma_short swing_bars (@start _ ma_short (ma_engine 100000))))
  /\
  total_trades
    (trades (@loop _ ma_short swing_bars (@start _ ma_short (ma_engine 100000))))
    = 1%nat.
Proof.
  destruct (@trades_alternate _ ma_short swing_bars (ma_engine 100000))
    as (Halt & Htotal & _ & _).
  - vm_compute. repeat constructor; intros; try reflexivity; discriminate.
  - split; [vm_compute; reflexivity|]. split; [exact Halt|].
    vm_compute. reflexivity.
Defined.

(** ** Maximum drawdown *)

Lemma drawdown_pct_bounds (p v : Q) :
  0 < v -> v <= p -> 0 <= drawdown_pct p v /\ drawdown_pct p v < 100.
Proof.
  intros Hv Hvp. unfold drawdown_pct.
  assert (Hp : 0 < p) by lra.
  assert (0 <= (p - v) / p) by (apply Qle_shift_div_l; [exact Hp | lra]).
  assert ((p - v) / p < 1) by (apply Qlt_shift_div_r; [exact Hp | lra]).
  split; lra.
Qed.

Lemma Qmaxb_spec (a b : Q) :
  a <= Qmaxb a b /\ b <= Qmaxb a b /\ (Qmaxb a b = a \/ Qmaxb a b = b).
Proof.
  unfold Qmaxb. by_cases_lt a b H.
  - repeat split; [lra | lra | right; reflexivity].
  - repeat split; [lra | lra | left; reflexivity].
Qed.

(** The running peak is the largest of the values seen. *)
Lemma fold_max_spec (l : list Q) :
  forall a,
    (fold_left Qmaxb l a = a \/ In (fold_left Qmaxb l a) l) /\
    a <= fold_left Qmaxb l a /\
    Forall (fun x => x <= fold_left Qmaxb l a) l.
Proof.
  induction l as [|x l IH]; intro a; simpl.
  - repeat split; [left; reflexivity | lra | constructor].
  - destruct (IH (Qmaxb a x)) as (Hin & Hge & Hall).
    destruct (Qmaxb_spec a x) as (Ha & Hx & Hwhich).
    repeat split.
    + destruct Hin as [E | Hin]; [|right; right; exact Hin].
      rewrite E. destruct Hwhich as [-> | ->];
        [left; reflexivity | right; left; reflexivity].
    + lra.
    + constructor; [lra | exact Hall].
Qed.

(** The loop never fails once the peak is positive: the peak only grows. *)
Lemma max_drawdown_loop_ok (rest : list Q) :
  forall peak dd0,
    0 < peak -> exists dd, max_drawdown_loop rest peak dd0 = Ok dd.
Proof.
  induction rest as [|x r IH]; intros peak dd0 Hpeak; simpl.
  - exists dd0. reflexivity.
  - fold (Qmaxb peak x). destruct (Qmaxb_spec peak x) as (Hp & _ & _).
    rewrite pydiv_ok
      by (intro E; rewrite E in Hp; apply (Qlt_not_le _ _ Hpeak Hp)).
    simpl. apply IH. lra.
Qed.

Lemma max_drawdown_loop_spec (rest : list Q) :
  forall peak dd0,
    0 < peak -> Forall (fun v => 0 < v) rest -> 0 <= dd0 -> dd0 <= 100 ->
    exists dd,
      max_drawdown_loop rest peak dd0 = Ok dd /\
      dd0 <= dd /\ dd <= 100 /\
      (forall pre v post,
         rest = pre ++ v :: post ->
         drawdown_pct (fold_left Qmaxb (pre ++ [v]) peak) v <= dd) /\
      (dd = dd0 \/
       exists pre v post,
         rest = pre ++ v :: post /\
         dd = drawdown_pct (fold_left Qmaxb (pre ++ [v]) peak) v).
Proof.
  induction rest as [|x r IH]; intros peak dd0 Hpeak Hall Hdd0 Hdd100.
  - exists dd0. split; [reflexivity|]. split; [apply Qle_refl|].
    split; [exact Hdd100|]. split; [|left; reflexivity].
    intros pre v post E. destruct pre; discriminate E.
  - inversion Hall as [|? ? Hx Hr]; subst. simpl.
    fold (Qmaxb peak x).
    destruct (Qmaxb_spec peak x) as (Hpp & Hxp & _).
    set (p' := Qmaxb peak x) in *.
    assert (Hp'0 : 0 < p') by lra.
    rewrite pydiv_ok
      by (intro E; rewrite E in Hp'0; apply (Qlt_irrefl _ Hp'0)).
    simpl.
    change ((p' - x) / p' * 100) with (drawdown_pct p' x).
    destruct (drawdown_pct_bounds p' x Hx Hxp) as [Hd0 Hd100].
    set (dd1 := if Qltb dd0 (drawdown_pct p' x)
                then drawdown_pct p' x else dd0).
    assert (Hdd1 : dd0 <= dd1 /\ drawdown_pct p' x <= dd1 /\ dd1 <= 100 /\
                   (dd1 = dd0 \/ dd1 = drawdown_pct p' x)).
    { unfold dd1. by_cases_lt dd0 (drawdown_pct p' x) E.
      - repeat split; [lra | lra | lra | right; reflexivity].
      - repeat split; [lra | lra | lra | left; reflexivity]. }
    destruct Hdd1 as (H01 & Hd1 & H1100 & Hwhich1).
    destruct (IH p' dd1 Hp'0 Hr ltac:(lra) H1100)
      as (dd & Hrun & Hge & Hle & Hpts & Hhit).
    exists dd. split; [exact Hrun|]. split; [lra|]. split; [exact Hle|].
    split.
    + intros pre v post E. destruct pre as [|y pre].
      * injection E as <- _. simpl. fold p'. lra.
      * injection E as <- E. simpl. fold p'. apply (Hpts pre v post E).
    + destruct Hhit as [-> | (pre & v & post & -> & ->)].
      * destruct Hwhich1 as [-> | ->]; [left; reflexivity|].
        right. exists [], x, r. split; reflexivity.
      * right. exists (x :: pre), v, post. split; reflexivity.
Qed.

(** X8.  Over a non-empty series of positive equity values the maximum
    drawdown is computed without error and lies between 0 and 100.  With
    the running peak at a value being the largest value up to and
    including it, the result is at least the drop, in percent of the
    running peak, of every value below its running peak, and it is either
    0 or exactly that drop at one of the values. *)
Theorem max_drawdown_spec (equity_values : list Q) :
  equity_values <> [] -> Forall (fun v => 0 < v) equity_values ->
  (forall seen, seen <> [] ->
     In (running_peak seen) seen /\
     Forall (fun x => x <= running_peak seen) seen) /\
  exists dd,
    _calculate_max_drawdown equity_values = Ok dd /\
    0 <= dd /\ dd <= 100 /\
    (forall pre v post,
       equity_values = pre ++ v :: post ->
       drawdown_pct (running_peak (pre ++ [v])) v <= dd) /\
    (dd = 0 \/
     exists pre v post,
       equity_values = pre ++ v :: post /\
       dd = drawdown_pct (running_peak (pre ++ [v])) v).
Proof.
  intros Hne Hall. split.
  - intros [|y seen] Hseen; [contradiction|]. unfold running_peak.
    destruct (fold_max_spec (y :: seen) y) as (Hin & _ & Hle).
    split; [|exact Hle].
    destruct Hin as [-> | Hin]; [left; reflexivity | exact Hin].
  - destruct equity_values as [|v0 r]; [contradiction|].
    inversion Hall as [|? ? Hv0 Hr]; subst.
    destruct (max_drawdown_loop_spec (v0 :: r) v0 0 Hv0 Hall
                ltac:(apply Qle_refl) ltac:(discriminate))
      as (dd & Hrun & Hge & Hle & Hpts & Hhit).
    assert (Hpeak : forall pre v post,
               v0 :: r = pre ++ v :: post ->
               running_peak (pre ++ [v]) = fold_left Qmaxb (pre ++ [v]) v0).
    { intros [|y pre] v post E; injection E as <- _; reflexivity. }
    exists dd. split; [exact Hrun|]. split; [exact Hge|]. split; [exact Hle|].
    split.
    + intros pre v post E. rewrite (Hpeak pre v post E).
      apply (Hpts pre v post E).
    + destruct Hhit as [-> | (pre & v & post & E & ->)]; [left; reflexivity|].
      right. exists pre, v, post. split; [exact E|].
      rewrite (Hpeak pre v post E). reflexivity.
Qed.

Lemma max_drawdown_spec_witness :
  exists dd, _calculate_max_drawdown [100; 120; 90; 110] = Ok dd /\
             drawdown_pct (running_peak [100; 120; 90]) 90 <= dd.
Proof.
  destruct (max_drawdown_spec [100; 120; 90; 110])
    as (_ & dd & H & _ & _ & Hp & _).
  - discriminate.
  - repeat constructor.
  - exists dd. split; [exact H|]. apply (Hp [100; 120] 90 [110]). reflexivity.
Defined.

(** X9.  The two ways the drawdown computation fails: [IndexError] exactly on
    an empty list, and [ZeroDivisionError] when the first value is 0. *)
Theorem max_drawdown_errors (equity_values : list Q) :
  (_calculate_max_drawdown equity_values = Raise IndexError <->
   equity_values = []) /\
  (forall v rest, equity_values = v :: rest -> v == 0 ->
   _calculate_max_drawdown equity_values = Raise ZeroDivisionError).
Proof.
  split.
  - split; [|intros ->; reflexivity].
    assert (G : forall l p d, max_drawdown_loop l p d <> Raise IndexError).
    { induction l as [|x l IH]; intros p d; simpl; [discriminate|].
      unfold pydiv. destruct (Qeq_bool _ 0); simpl; [discriminate | apply IH]. }
    destruct equity_values as [|v r]; [reflexivity|].
    intro H. exfalso. exact (G (v :: r) v 0 H).
  - intros v rest -> Hz. unfold _calculate_max_drawdown. simpl.
    by_cases_lt v v Hx; [exfalso; apply (Qlt_irrefl _ Hx)|].
    unfold pydiv. apply Qeq_bool_iff in Hz. rewrite Hz. reflexivity.
Qed.

(** ** Longest losing streak *)

Lemma max_consecutive_losses_loop_spec (rest : list Q) :
  forall max_losses current,
    (current <= max_losses)%nat ->
    let r := max_consecutive_losses_loop rest max_losses current in
    (max_losses <= r)%nat /\
    (forall run l2, rest = run ++ l2 -> Forall is_loss run ->
       (current + length run <= r)%nat) /\
    (forall l1 run l2, rest = l1 ++ run ++ l2 -> Forall is_loss run ->
       (length run <= r)%nat) /\
    (r = max_losses \/
     (exists run l2, rest = run ++ l2 /\ Forall is_loss run /\
                     r = (current + length run)%nat) \/
     (exists l1 run l2, rest = l1 ++ run ++ l2 /\ Forall is_loss run /\
                        r = length run)).
Proof.
  induction rest as [|p rest IH]; intros m c Hcm; cbv zeta.
  - simpl. split; [lia|]. split; [|split; [|left; reflexivity]].
    + intros run l2 E _. symmetry in E. apply app_eq_nil in E as [-> _].
      simpl. lia.
    + intros l1 run l2 E _. symmetry in E.
      apply app_eq_nil in E as [_ E]. apply app_eq_nil in E as [-> _].
      simpl. lia.
  - simpl. by_cases_le p 0 Hp.
    + assert (Hc' : (S c <= Nat.max m (S c))%nat) by lia.
      destruct (IH (Nat.max m (S c)) (S c) Hc') as (Hge & Hpre & Hmid & Hhit).
      set (r := max_consecutive_losses_loop rest (Nat.max m (S c)) (S c)) in *.
      split; [lia|]. split; [|split].
      * intros [|x run] l2 E Hrun; [simpl; lia|].
        injection E as -> ->. inversion Hrun; subst.
        specialize (Hpre run l2 eq_refl ltac:(assumption)). simpl. lia.
      * intros [|y l1] run l2 E Hrun.
        -- destruct run as [|x run]; [simpl; lia|].
           injection E as -> E. inversion Hrun as [|? ? Hx Hrun']; subst.
           specialize (Hpre run l2 eq_refl Hrun'). simpl. lia.
        -- injection E as -> E. apply (Hmid l1 run l2 E Hrun).
      * destruct Hhit as [Hr | [(run & l2 & -> & Hrun & Hr) |
                                (l1 & run & l2 & -> & Hrun & Hr)]].
        -- destruct (Nat.max_spec m (S c)) as [[_ Hmax] | [_ Hmax]].
           ++ right. left. exists [p], rest. repeat split.
              ** constructor; [exact Hp | constructor].
              ** simpl. lia.
           ++ left. lia.
        -- right. left. exists (p :: run), l2. repeat split.
           ++ constructor; assumption.
           ++ simpl. lia.
        -- right. right. exists (p :: l1), run, l2. repeat split; assumption.
    + destruct (IH m 0%nat ltac:(lia)) as (Hge & Hpre & Hmid & Hhit).
      set (r := max_consecutive_losses_loop rest m 0) in *.
      split; [lia|]. split; [|split].
      * intros [|x run] l2 E Hrun; [simpl; lia|].
        injection E as -> ->. inversion Hrun as [|? ? Hx ?]; subst.
        exfalso. unfold is_loss in Hx. apply (Qlt_not_le _ _ Hp Hx).
      * intros [|y l1] run l2 E Hrun.
        -- destruct run as [|x run]; [simpl; lia|].
           injection E as -> E. inversion Hrun as [|? ? Hx ?]; subst.
           exfalso. unfold is_loss in Hx. apply (Qlt_not_le _ _ Hp Hx).
        -- injection E as -> E. apply (Hmid l1 run l2 E Hrun).
      * destruct Hhit as [Hr | [(run & l2 & -> & Hrun & Hr) |
                                (l1 & run & l2 & -> & Hrun & Hr)]].
        -- left. exact Hr.
        -- right. right. exists [p], run, l2. repeat split; assumption.
        -- right. right. exists (p :: l1), run, l2. repeat split; assumption.
Qed.

(** X10.  [_calculate_max_consecutive_losses] is the length of the longest run
    of consecutive losses (profit [<= 0], breakeven included): no run of
    consecutive losses in the list is longer, and one has that length. *)
Theorem max_consecutive_losses_spec (profits : list Q) :
  (forall l1 run l2,
     profits = l1 ++ run ++ l2 -> Forall is_loss run ->
     (length run <= _calculate_max_consecutive_losses profits)%nat) /\
  (exists l1 run l2,
     profits = l1 ++ run ++ l2 /\ Forall is_loss run /\
     length run = _calculate_max_consecutive_losses profits) /\
  (_calculate_max_consecutive_losses profits <= lost_trades profits)%nat.
Proof.
  unfold _calculate_max_consecutive_losses.
  destruct (max_consecutive_losses_loop_spec profits 0 0 (Nat.le_refl 0))
    as (_ & _ & Hmid & Hhit).
  split; [exact Hmid|].
  assert (Hex : exists l1 run l2,
             profits = l1 ++ run ++ l2 /\ Forall is_loss run /\
             length run = max_consecutive_losses_loop profits 0 0).
  { destruct Hhit as [Hr | [(run & l2 & E & Hrun & Hr) |
                            (l1 & run & l2 & E & Hrun & Hr)]].
    - exists [], [], profits. repeat split; [constructor | simpl; lia].
    - exists [], run, l2. repeat split; [exact E | exact Hrun | simpl; lia].
    - exists l1, run, l2. repeat split; [exact E | exact Hrun | lia]. }
  split; [exact Hex|].
  destruct Hex as (l1 & run & l2 & E & Hrun & <-).
  rewrite E. unfold lost_trades. rewrite !filter_app, !length_app.
  assert (length (filter (fun p => Qle_bool p 0) run) = length run).
  { clear E. induction Hrun as [|x run Hx _ IH]; [reflexivity|].
    simpl. apply Qle_bool_iff in Hx. rewrite Hx. simpl. congruence. }
  lia.
Qed.

(** ** Bars without signals *)

Section Quiet.

Context {B : Type} {strat : Strategy B}.


Variable Good : bar -> Prop.
Variable Inv : nat -> B -> Prop.

Hypothesis Inv_step :
  forall n b s, Good b -> Inv (S n) s ->
    Inv n (on_bar b s) /\
    forall a, should_buy a (on_bar b s) = false /\
              should_sell a (on_bar b s) = false.


End Quiet.

(** ** The moving-average strategies *)






















(** ** Positions and repeated runs *)

Section Guarded.

Context {B : Type} {strat : Strategy B} {float_steps : FloatSteps}.

(** X14.  For a strategy that, like the two in the repository, never asks to buy
    while a position is held: a bar leaves a held position exactly as it
    is, entry price included, or sells all of it at the close. *)
Theorem held_position_only_sold (b : bar) (e : engine B) :
  (forall a s, 0 < position a -> should_buy a s = false) ->
  0 < position (strategy e) ->
  let e' := process_bar b e in
  (strategy e' = strategy e /\ trades e' = trades e) \/
  (position (strategy e') == 0 /\
   entry_price (strategy e') = None /\
   cash (strategy e') = cash (strategy e) + close b * position (strategy e) /\
   trades e' = trades e ++ [{| t_datetime := datetime b; t_type := SELL;
                               t_price := close b;
                               t_size := position (strategy e) |}]).
Proof.
  intros Hguard Hpos. cbv zeta.
  rewrite process_bar_trades, process_bar_account, (Hguard _ _ Hpos).
  destruct (should_sell _ _); [|left; split; reflexivity].
  right. unfold sell.
  by_cases_le (position (strategy e)) 0 Hp.
  { exfalso. apply (Qlt_not_le _ _ Hpos Hp). }
  by_cases_lt (position (strategy e)) (position (strategy e)) Hx.
  { exfalso. apply (Qlt_irrefl _ Hx). }
  assert (Hz : position (strategy e) - position (strategy e) == 0) by ring.
  apply Qeq_bool_iff in Hz as Hzb. simpl. rewrite Hzb.
  repeat split. exact Hz.
Qed.

(** X15.  [run] starts by resetting the strategy and clearing the logs, so for
    a strategy whose [reset] restores fixed buffers (as both strategies
    of the repository do) the outcome of a run depends only on the data
    and the initial capital, not on what the engine and the strategy went
    through before. *)
Theorem run_is_repeatable (verbose : bool) (data : list bar)
    (e1 e2 : engine B) :
  (forall s1 s2, reset_buffers s1 = reset_buffers s2) ->
  initial_capital e1 = initial_capital e2 ->
  run verbose data e1 = run verbose data e2.
Proof.
  intros Hreset Hcap. unfold run.
  assert (Hstart : start e1 = start e2).
  { unfold start, strategy_reset. simpl.
    rewrite Hcap, (Hreset (buffers e1) (buffers e2)). reflexivity. }
  rewrite Hstart. reflexivity.
Qed.

End Guarded.

Lemma ma_guards (a : account) (s : MACrossStrategy.buffers) :
  (0 < position a -> MACrossStrategy.ma_should_buy a s = false) /\
  (position a <= 0 -> MACrossStrategy.ma_should_sell a s = false).
Proof.
  unfold MACrossStrategy.ma_should_buy, MACrossStrategy.ma_should_sell.
  split; intro H.
  - apply Qltb_true in H. rewrite H. reflexivity.
  - apply Qle_bool_iff in H. rewrite H. reflexivity.
Qed.

Lemma tp_guards (a : account) (s : TemplateStrategy.buffers) :
  (0 < position a -> TemplateStrategy.tp_should_buy a s = false) /\
  (position a <= 0 -> TemplateStrategy.tp_should_sell a s = false).
Proof.
  unfold TemplateStrategy.tp_should_buy, TemplateStrategy.tp_should_sell.
  split; intro H.
  - apply Qltb_true in H. rewrite H. reflexivity.
  - apply Qle_bool_iff in H. rewrite H. reflexivity.
Qed.

Lemma held_position_only_sold_witness :
  let e := ma_loop rising_bars 100000 in
  let e' := @process_bar _ ma_default (flat_bar 21 9) e in
  (strategy e' = strategy e /\ trades e' = trades e) \/
  (position (strategy e') == 0 /\
   entry_price (strategy e') = None /\
   cash (strategy e') = cash (strategy e) + 9 * position (strategy e) /\
   trades e' = trades e ++ [{| t_datetime := 21; t_type := SELL;
                               t_price := 9;
                               t_size := position (strategy e) |}]).
Proof.
  apply (@held_position_only_sold _ ma_default (flat_bar 21 9)
           (ma_loop rising_bars 100000)).
  - intros a s H. apply (proj1 (ma_guards a s) H).
  - vm_compute. reflexivity.
Defined.

Lemma run_is_repeatable_witness :
  @run _ ma_default (float_steps_returning F64_nan F64_nan) false rising_bars
    (ma_loop zero_close_bars 100000) =
  @run _ ma_default (float_steps_returning F64_nan F64_nan) false rising_bars
    (ma_engine 100000).
Proof.
  apply (@run_is_repeatable _ ma_default).
  - reflexivity.
  - apply (@loop_capital _ ma_default).
Defined.

(** ** When a run returns a report *)

(** Run with the opening [print] or without: on a non-empty series the
    result is the same. *)
Lemma run_verbose_nonempty {B : Type} {strat : Strategy B}
    {float_steps : FloatSteps} (data : list bar) (e : engine B) :
  data <> [] -> run true data e = run false data e.
Proof.
  intro H. unfold run.
  assert (Hd : map datetime data <> [])
    by (destruct data; [contradiction | discriminate]).
  destruct (pyindex_first_ok _ Hd) as [x ->].
  destruct (pyindex_last_ok _ Hd) as [y ->]. reflexivity.
Qed.

Section Reports.

Context {B : Type} {strat : Strategy B} {float_steps : FloatSteps}.

Lemma loop_nonempty_curve (data : list bar) (e : engine B) :
  data <> [] -> map e_value (equity_curve (loop data e)) <> [] /\
                equity_curve (loop data e) <> [].
Proof.
  intro H. destruct (loop_equity_prefix data e) as (pts & -> & Hlen).
  destruct pts as [|pt pts].
  - destruct data; [contradiction | discriminate Hlen].
  - split; [rewrite map_app|]; intro E; apply app_eq_nil in E as [_ E];
      discriminate E.
Qed.

(** X16.  A run with no capital cannot report: with at least one bar, the return
    on the initial capital is a division by zero. *)
Theorem run_without_capital (verbose : bool) (data : list bar)
    (e : engine B) :
  data <> [] -> initial_capital e == 0 ->
  run verbose data e = Raise ZeroDivisionError.
Proof.
  intros Hdata Hcap.
  assert (Hq : run false data e = Raise ZeroDivisionError).
  { unfold run. simpl bind. unfold _calculate_metrics.
    destruct (loop_nonempty_curve data (start e) Hdata) as [Hv Hc].
    destruct (equity_curve (loop data (start e))) as [|pt pts] eqn:E;
      [contradiction|].
    destruct (pyindex_last_ok _ Hv) as [x ->]. simpl bind.
    rewrite loop_capital. simpl initial_capital.
    unfold pydiv. apply Qeq_bool_iff in Hcap. rewrite Hcap. reflexivity. }
  destruct verbose; [rewrite run_verbose_nonempty by exact Hdata|]; exact Hq.
Qed.

(** Trading at the close leaves the total value as it was. *)
Lemma process_bar_value (b : bar) (e : engine B) :
  0 <= position (strategy e) ->
  cash (strategy (process_bar b e)) +
  position (strategy (process_bar b e)) * close b ==
  cash (strategy e) + position (strategy e) * close b.
Proof.
  intro Hpos. rewrite process_bar_account.
  destruct (should_buy _ _).
  - unfold buy. simpl position. simpl cash.
    by_cases_lt 0 (position (strategy e)) Hp; [reflexivity|].
    match goal with
    | |- context [Qltb (cash (strategy e)) ?c] =>
        by_cases_lt (cash (strategy e)) c Hc
    end; [reflexivity|].
    simpl. assert (Hz : position (strategy e) == 0) by lra.
    rewrite Hz. ring.
  - destruct (should_sell _ _); [|reflexivity].
    unfold sell.
    by_cases_le (position (strategy e)) 0 Hp; [reflexivity|].
    by_cases_lt (position (strategy e)) (position (strategy e)) Hx.
    { exfalso. apply (Qlt_irrefl _ Hx). }
    simpl. ring.
Qed.

(** The first equity value of a run is its capital. *)
Lemma first_equity_value (b : bar) (data : list bar) (e : engine B) :
  exists v rest,
    map e_value (equity_curve (loop (b :: data) (start e))) = v :: rest /\
    v == initial_capital e.
Proof.
  change (loop (b :: data) (start e))
    with (loop data (process_bar b (start e))).
  destruct (loop_equity_prefix data (process_bar b (start e)))
    as (pts & -> & _).
  rewrite process_bar_equity. simpl. eexists. eexists.
  split; [reflexivity|].
  rewrite process_bar_value by (simpl; apply Qle_refl).
  simpl. ring.
Qed.

(** Every logged trade is priced at a close. *)
Lemma loop_trade_prices (data : list bar) (e : engine B) :
  Forall (fun b => 0 < close b) data ->
  Forall (fun t => 0 < t_price t) (trades e) ->
  Forall (fun t => 0 < t_price t) (trades (loop data e)).
Proof.
  revert e. induction data as [|b data IH]; intros e Hall Ht; [exact Ht|].
  inversion Hall as [|? ? Hb Hrest]; subst.
  change (loop (b :: data) e) with (loop data (process_bar b e)).
  apply IH; [exact Hrest|]. rewrite process_bar_trades.
  repeat match goal with
         | |- context [if ?c then _ else _] => destruct c
         end; try exact Ht;
    (apply Forall_app; split; [exact Ht|]);
    (constructor; [exact Hb | constructor]).
Qed.

Lemma profits_of_ok (log : list trade) :
  Forall (fun t => 0 < t_price t) log ->
  exists profits, profits_of log = Ok profits /\
                  length profits = total_trades log.
Proof.
  intro Hall. unfold profits_of.
  pose proof (profits_loop_spec (buy_trades log) (sell_trades log)
                (total_trades log) 0 []) as H.
  destruct (profits_loop _ _ _ _) as [ps|ex].
  - destruct H as (new & -> & Hlen & _);
      [unfold total_trades; lia | unfold total_trades; lia |].
    exists new. split; [reflexivity | exact Hlen].
  - exfalso.
    destruct H as (_ & i & b & _ & Hb & Hz);
      [unfold total_trades; lia | unfold total_trades; lia |].
    apply nth_error_In in Hb. unfold buy_trades in Hb.
    apply filter_In in Hb as [Hb _].
    pose proof (proj1 (Forall_forall _ _) Hall b Hb) as Hpos. simpl in Hpos.
    rewrite Hz in Hpos. apply (Qlt_irrefl _ Hpos).
Qed.

(** X17.  With a positive capital, at least one bar and positive closes,
    the exact steps of a run fail on no index and no division, so the
    outcome is that of the float steps: the run raises what the Sharpe
    step or the annualised-return step raises (the power can overflow),
    and when both return it returns the full report, which carries their
    two values, the run's capital, the number of bars, the pair count of
    the trade log and the three logs as the loop left them. *)
Theorem run_reports (verbose : bool) (data : list bar) (e : engine B) :
  data <> [] -> 0 < initial_capital e ->
  Forall (fun b => 0 < close b) data ->
  let e' := loop data (start e) in
  let values := map e_value (equity_curve e') in
  (forall ex,
     sharpe_ratio_of values = Raise ex -> run verbose data e = Raise ex) /\
  (forall sharpe ex,
     sharpe_ratio_of values = Ok sharpe ->
     annual_return_of (total_return_pct e') (run_days data) = Raise ex ->
     run verbose data e = Raise ex) /\
  (forall sharpe annual,
     sharpe_ratio_of values = Ok sharpe ->
     annual_return_of (total_return_pct e') (run_days data) = Ok annual ->
     exists m,
       run verbose data e = Ok (Report m, e') /\
       m_initial_capital m = initial_capital e /\
       m_sharpe_ratio m = sharpe /\
       m_annual_return_pct m = annual /\
       m_total_trades m = total_trades (trades e') /\
       m_trading_days m = length data /\
       m_trades m = trades e' /\
       m_equity_curve m = equity_curve e' /\
       m_signals m = signals e').
Proof.
  intros Hdata Hcap Hall. cbv zeta.
  assert (Hrun : run verbose data e =
                 bind (_calculate_metrics data (loop data (start e)))
                   (fun results => Ok (results, loop data (start e)))).
  { destruct verbose; [rewrite run_verbose_nonempty by exact Hdata|];
      reflexivity. }
  destruct (profits_of_ok (trades (loop data (start e))))
    as (profits & Hprofits & _).
  { apply loop_trade_prices; [exact Hall | constructor]. }
  assert (Hdd : exists dd,
             _calculate_max_drawdown
               (map e_value (equity_curve (loop data (start e)))) = Ok dd).
  { destruct data as [|b data]; [contradiction|].
    destruct (first_equity_value b data e) as (v & rest & -> & Hv).
    apply (max_drawdown_loop_ok (v :: rest) v 0). rewrite Hv. exact Hcap. }
  destruct Hdd as [dd Hdd].
  destruct (metrics_outcome data (loop data (start e)) profits dd)
    as (Hsharpe & Hannual & Hok).
  - apply loop_nonempty_curve. exact Hdata.
  - exact Hdata.
  - rewrite loop_capital. simpl. intro E. rewrite E in Hcap.
    apply (Qlt_irrefl _ Hcap).
  - exact Hprofits.
  - exact Hdd.
  - rewrite Hrun. split; [|split].
    + intros ex H. rewrite (Hsharpe ex H). reflexivity.
    + intros sharpe ex H1 H2. rewrite (Hannual sharpe ex H1 H2). reflexivity.
    + intros sharpe annual H1 H2.
      destruct (Hok sharpe annual H1 H2)
        as (m & Hm & Hc & Hs & Ha & Ht & _ & _ & _ & Hd & Htr & Heq & Hsig).
      exists m. rewrite Hm. rewrite loop_capital in Hc. simpl in Hc.
      repeat split; assumption.
Qed.

End Reports.

Lemma run_without_capital_witness :
  @run _ ma_default (float_steps_returning F64_nan F64_nan) false rising_bars
    (ma_engine 0) = Raise ZeroDivisionError.
Proof.
  apply (@run_without_capital _ ma_default); [discriminate | reflexivity].
Defined.

(** The run over the rising bars: a report when the float steps return,
    the overflow of the power when it overflows. *)
Lemma run_reports_witness :
  (exists m,
     @run _ ma_default (float_steps_returning (F64 0) (F64 0)) true
       rising_bars (ma_engine 100000) =
       Ok (Report m, ma_loop rising_bars 100000) /\
     m_trading_days m = 21%nat) /\
  @run _ ma_default (float_steps_overflowing (F64 0)) true
    rising_bars (ma_engine 100000) = Raise OverflowError.
Proof.
  split.
  - destruct (@run_reports _ ma_default (float_steps_returning (F64 0) (F64 0))
                true rising_bars (ma_engine 100000)) as (_ & _ & Hok).
    + discriminate.
    + reflexivity.
    + unfold rising_bars. simpl. repeat constructor.
    + destruct (Hok (F64 0) (F64 0) eq_refl eq_refl)
        as (m & Hrun & _ & _ & _ & _ & Hdays & _).
      exists m. split; [exact Hrun | exact Hdays].
  - destruct (@run_reports _ ma_default (float_steps_overflowing (F64 0))
                true rising_bars (ma_engine 100000)) as (_ & Hraise & _).
    + discriminate.
    + reflexivity.
    + unfold rising_bars. simpl. repeat constructor.
    + apply (Hraise (F64 0) OverflowError); reflexivity.
Defined.

(** The run that buys at 1, sells at 7 and buys again at 4 reports one
    completed trade, won. *)
Example swing_run_report :
  exists m,
    @run _ ma_short (float_steps_returning (F64 0) (F64 0)) false swing_bars
      (ma_engine 100000) =
      Ok (Report m,
          @loop _ ma_short swing_bars (@start _ ma_short (ma_engine 100000)))
    /\
    m_total_trades m = 1%nat /\ m_won_trades m = 1%nat /\
    m_lost_trades m = 0%nat /\ m_max_consecutive_losses m = 0%nat /\
    m_profit_factor m = PosInf.
Proof.
  vm_compute. eexists. repeat split.
Qed.

(** ** Thinning of the equity curve for the web client *)

Lemma every_nth_nth {A : Type} (step : nat) (xs : list A) :
  (1 <= step)%nat ->
  forall skip i,
    nth_error (WebUI.every_nth step skip xs) i =
    nth_error xs (skip + i * step).
Proof.
  intro Hstep. induction xs as [|x xs IH]; intros skip i.
  - simpl. destruct i, (skip + _)%nat; reflexivity.
  - destruct skip as [|k]; simpl WebUI.every_nth.
    + destruct i as [|i]; [reflexivity|].
      simpl nth_error at 1. rewrite IH.
      replace (0 + S i * step)%nat with (S (step - 1 + i * step)) by lia.
      reflexivity.
    + rewrite IH. reflexivity.
Qed.

Lemma every_nth_length {A : Type} (step : nat) (xs : list A) :
  forall skip, (skip < step)%nat ->
    length (WebUI.every_nth step skip xs) =
    ((length xs + step - 1 - skip) / step)%nat.
Proof.
  induction xs as [|x xs IH]; intros skip Hskip.
  - simpl. symmetry. apply Nat.div_small. lia.
  - destruct skip as [|k]; simpl WebUI.every_nth.
    + simpl length. rewrite IH by lia.
      replace (S (length xs) + step - 1 - 0)%nat
        with (length xs + step - 1 - (step - 1) + 1 * step)%nat by lia.
      rewrite Nat.div_add by lia. lia.
    + rewrite IH by lia. simpl length. f_equal. lia.
Qed.

(** X19.  What the web API does to the equity curve of a report: up to 500
    points are passed on as they are; a longer curve is thinned to every
    [len // 500]-th point starting with the first, which leaves at least
    500 and at most 999 points. *)
Theorem sample_equity_curve_spec (curve : list equity_point) :
  ((length curve <= 500)%nat -> WebUI.sample_equity_curve curve = curve) /\
  ((500 < length curve)%nat ->
   let step := (length curve / 500)%nat in
   (1 <= step)%nat /\
   (forall i, nth_error (WebUI.sample_equity_curve curve) i =
              nth_error curve (i * step)) /\
   (500 <= length (WebUI.sample_equity_curve curve) <= 999)%nat).
Proof.
  unfold WebUI.sample_equity_curve.
  destruct (Nat.ltb_spec 500 (length curve)) as [Hlong|Hshort].
  - split; [intro; lia|]. intros _. cbv zeta.
    set (n := length curve) in *. set (step := (n / 500)%nat).
    assert (Hstep : (1 <= step)%nat).
    { unfold step. apply Nat.div_le_lower_bound; lia. }
    split; [exact Hstep|]. split.
    + intro i. rewrite every_nth_nth by exact Hstep. reflexivity.
    + rewrite every_nth_length by lia. fold n.
      pose proof (Nat.div_mod n 500 ltac:(lia)) as Hdm. fold step in Hdm.
      pose proof (Nat.mod_upper_bound n 500 ltac:(lia)) as Hr.
      split.
      * apply Nat.div_le_lower_bound; lia.
      * assert ((n + step - 1 - 0) / step < 1000)%nat; [|lia].
        apply Nat.Div0.div_lt_upper_bound; lia.
  - split; [reflexivity|]. intro; lia.
Qed.
